(** * AuthContext.jsx: session store and activity log

    A shallow embedding of [src/contexts/AuthContext.jsx].  The provider
    keeps the current user in React state, mirrors the session in
    [localStorage] under the keys "token", "userRole", "userId" and
    "email", and keeps an audit trail of logins and logouts under the key
    "userLogs".

    Modelling choices, all visible in the definitions below:
    - the four session keys live in a [gmap string string]; [getItem]
      and [removeItem] are total, [setItem] may be refused by the browser
      (QuotaExceededError), which is decided by a quota predicate the
      whole development is parametric in;
    - the text stored under "userLogs" is represented by what
      [JSON.parse] makes of it: an array of log entries, or an unreadable
      text on which the [try] block of [logUserActivity] throws;
    - [Date.now()], [new Date().toISOString()] and [Math.random()] are
      readings of the environment, passed to each call explicitly;
    - code that may throw lives in a state-and-exception monad over the
      observable world (storage, React state, console). *)

From Stdlib Require Import String Ascii.
From stdpp Require Import gmap strings list fin_maps pretty.

(** ** JavaScript helpers *)

(** Truthiness of a value that is [null] or a string. *)
Definition truthy (v : option string) : bool :=
  match v with
  | Some s => negb (String.eqb s "")
  | None => false
  end.

(** [v || d] for such a value. *)
Definition orElse (v : option string) (d : string) : string :=
  match v with
  | Some s => if String.eqb s "" then d else s
  | None => d
  end.

(** [s.includes(sub)] *)
Fixpoint includes (s sub : string) : bool :=
  if String.prefix sub s then true
  else match s with
       | EmptyString => false
       | String _ s' => includes s' sub
       end.

(** [Array.prototype.findIndex]; [None] stands for [-1]. *)
Fixpoint findIndex {A : Type} (p : A → bool) (l : list A) : option nat :=
  match l with
  | [] => None
  | x :: l' => if p x then Some 0 else S <$> findIndex p l'
  end.

(** [l.slice(-n)]: the last [n] elements, the whole array when it is
    shorter. *)
Definition sliceLast {A : Type} (n : nat) (l : list A) : list A :=
  drop (length l - n) l.

(** ** Data model *)

Record LogEntry : Type := mkLogEntry {
  e_id : string;
  e_userId : string;
  e_username : string;
  e_role : string;
  e_action : string;
  e_loginTime : option string;
  e_logoutTime : option string;
  e_ipAddress : string;
  e_tokenName : string
}.

(** The object held in React state: [{ email }] after a restore,
    [{ email, userId, role }] after a login or signup. *)
Record User : Type := mkUser {
  u_email : string;
  u_userId : option string;
  u_role : option string
}.

(** What [login] and [signup] return. *)
Record Session : Type := mkSession {
  s_email : string;
  s_userId : string;
  s_role : string
}.

(** The text under "userLogs", seen through [JSON.parse]. *)
Inductive LogsText : Type :=
  | JsonLogs (l : list LogEntry)
  | Unreadable.

Record Storage : Type := mkStorage {
  items : gmap string string;
  userLogs : option LogsText
}.

Inductive exn : Type :=
  | SyntaxError
  | QuotaExceededError
  | OtherError (msg : string).

Inductive ConsoleLine : Type :=
  | ConsoleLog (msg : string)
  | ConsoleError (msg : string) (error : exn).

Record World : Type := mkWorld {
  storage : Storage;
  user : option User;
  loading : bool;
  console : list ConsoleLine
}.

Definition withStorage (s : Storage) (w : World) : World :=
  mkWorld s (user w) (loading w) (console w).

Definition withUser (u : option User) (w : World) : World :=
  mkWorld (storage w) u (loading w) (console w).

Definition withLoading (b : bool) (w : World) : World :=
  mkWorld (storage w) (user w) b (console w).

Definition withConsole (c : list ConsoleLine) (w : World) : World :=
  mkWorld (storage w) (user w) (loading w) c.

(** Readings of the clock and of the random source taken by one call of
    [logUserActivity]. *)
Record Readings : Type := mkReadings {
  dateNow : N;            (* Date.now() for the entry id *)
  random36 : string;      (* Math.random().toString(36).substr(2, 9) *)
  isoNow : string;        (* new Date().toISOString() in newLog *)
  ipRandom : nat;         (* Math.floor(Math.random() * 254) *)
  isoUpdate : string      (* new Date().toISOString() on the update path *)
}.

(** Readings taken by [login] and [signup]. *)
Record LoginReadings : Type := mkLoginReadings {
  tokenPayload : string;    (* btoa(JSON.stringify({sub, exp, iat})) *)
  tokenSignature : string;  (* btoa("mock_signature_" + random) *)
  idStamp : N;              (* Date.now() for the user id *)
  activity : Readings
}.

(** ** The monad: state over [World], with exceptions *)

Definition M (A : Type) : Type := World → (exn + A) * World.

Definition ret {A : Type} (a : A) : M A := λ w, (inr a, w).

Definition bind {A B : Type} (m : M A) (k : A → M B) : M B :=
  λ w, match m w with
       | (inr a, w') => k a w'
       | (inl e, w') => (inl e, w')
       end.

Definition throw {A : Type} (e : exn) : M A := λ w, (inl e, w).

(** [try { m } catch (error) { h error }] *)
Definition tryCatch {A : Type} (m : M A) (h : exn → M A) : M A :=
  λ w, match m w with
       | (inl e, w') => h e w'
       | r => r
       end.

(** [try { m } catch (error) { h error } finally { f }] where [f] does
    not throw or return. *)
Definition tryCatchFinally {A : Type} (m : M A) (h : exn → M A)
    (f : World → World) : M A :=
  λ w, let (r, w') := tryCatch m h w in (r, f w').

#[global] Instance M_ret : MRet M := @ret.
#[global] Instance M_bind : MBind M := λ A B k m, bind m k.

Definition jwtHeader : string := "eyJhbGciOiJIUzI1NiIsInR5cCI6IkpXVCJ9".

(** [generateMockToken]: header, payload and signature joined by dots;
    the header is [btoa] of the constant JSON text. *)
Definition generateMockToken (r : LoginReadings) : string :=
  jwtHeader +:+ "." +:+ tokenPayload r +:+ "." +:+ tokenSignature r.

(** [getMockIpAddress] *)
Definition getMockIpAddress (r : Readings) : string :=
  "192.168.1." +:+ pretty (ipRandom r + 1)%nat.

(** The object literal bound to [newLog]. *)
Definition newLog (userId username role action : string)
    (tokenName : option string) (r : Readings) : LogEntry :=
  {| e_id := pretty (dateNow r) +:+ random36 r;
     e_userId := userId;
     e_username := username;
     e_role := role;
     e_action := action;
     e_loginTime := if String.eqb action "login" then Some (isoNow r) else None;
     e_logoutTime := if String.eqb action "logout" then Some (isoNow r) else None;
     e_ipAddress := getMockIpAddress r;
     e_tokenName := orElse tokenName "N/A" |}.

(** The callback given to [findIndex]:
    [log.userId === userId && log.action === "login" && !log.logoutTime] *)
Definition isOpenLogin (userId : string) (log : LogEntry) : bool :=
  String.eqb (e_userId log) userId
  && String.eqb (e_action log) "login"
  && negb (truthy (e_logoutTime log)).

(** The two assignments [existingLogs[i].logoutTime = ...] and
    [existingLogs[i].action = "logout"]. *)
Definition closeEntry (now : string) (log : LogEntry) : LogEntry :=
  {| e_id := e_id log;
     e_userId := e_userId log;
     e_username := e_username log;
     e_role := e_role log;
     e_action := "logout";
     e_loginTime := e_loginTime log;
     e_logoutTime := Some now;
     e_ipAddress := e_ipAddress log;
     e_tokenName := e_tokenName log |}.

Section AuthProvider.

(** The browser's quota: [fits s] holds when a write that would leave the
    storage as [s] is accepted. *)
Variable fits : Storage → bool.

(** *** localStorage *)

Definition getItem (key : string) : M (option string) :=
  λ w, (inr (items (storage w) !! key), w).

Definition setItem (key value : string) : M unit :=
  λ w, let s := mkStorage (<[key := value]> (items (storage w)))
                          (userLogs (storage w)) in
       if fits s then (inr tt, withStorage s w)
       else (inl QuotaExceededError, w).

Definition removeItem (key : string) : M unit :=
  λ w, (inr tt, withStorage (mkStorage (delete key (items (storage w)))
                                       (userLogs (storage w))) w).

(** [JSON.parse(localStorage.getItem("userLogs") || "[]")] *)
Definition readUserLogs : M (list LogEntry) :=
  λ w, match userLogs (storage w) with
       | None => (inr [], w)
       | Some (JsonLogs l) => (inr l, w)
       | Some Unreadable => (inl SyntaxError, w)
       end.

(** [localStorage.setItem("userLogs", JSON.stringify(logs))] *)
Definition writeUserLogs (logs : list LogEntry) : M unit :=
  λ w, let s := mkStorage (items (storage w)) (Some (JsonLogs logs)) in
       if fits s then (inr tt, withStorage s w)
       else (inl QuotaExceededError, w).

(** *** React state and console *)

Definition setUser (u : option User) : M unit :=
  λ w, (inr tt, withUser u w).

Definition setLoading (b : bool) : World → World := withLoading b.

Definition consoleLog (msg : string) : M unit :=
  λ w, (inr tt, withConsole (console w ++ [ConsoleLog msg]) w).

Definition consoleError (msg : string) (error : exn) : M unit :=
  λ w, (inr tt, withConsole (console w ++ [ConsoleError msg error]) w).

(** The initial value of the [user] state. *)
Definition initialUser (s : Storage) : option User :=
  match items s !! "token", items s !! "email" with
  | Some token, Some email =>
      if truthy (Some token) && truthy (Some email)
      then Some (mkUser email None None) else None
  | _, _ => None
  end.

(** *** logUserActivity *)

Definition logUserActivity (userId username role action : string)
    (tokenName : option string) (r : Readings) : M unit :=
  tryCatch
    (existingLogs ← readUserLogs;
     let newLog := newLog userId username role action tokenName r in
     let existingLogs :=
       if String.eqb action "logout" then
         match findIndex (isOpenLogin userId) existingLogs with
         | Some loginLogIndex =>
             alter (closeEntry (isoUpdate r)) loginLogIndex existingLogs
         | None => existingLogs ++ [newLog]
         end
       else existingLogs ++ [newLog] in
     let recentLogs := sliceLast 100 existingLogs in
     writeUserLogs recentLogs;;
     consoleLog ("User activity logged: " +:+ action +:+ " for " +:+ username))
    (λ error, consoleError "Failed to log user activity:" error).

(** *** handleLogout *)

Section Logout.

(** [handleLogout] closes over the [logUserActivity] callback (its
    [useCallback] dependency); the body is written over any callback,
    also one that throws. *)
Variable logActivity :
  string → string → string → string → option string → M unit.

Definition handleLogoutWith : M unit :=
  tryCatch
    (userId ← getItem "userId";
     email ← getItem "email";
     role ← getItem "userRole";
     (if truthy userId && truthy email && truthy role
      then logActivity (default "" userId) (default "" email)
                       (default "" role) "logout" None
      else mret tt);;
     removeItem "token";;
     removeItem "userRole";;
     removeItem "userId";;
     removeItem "email";;
     setUser None;;
     consoleLog "User logged out")
    (λ error,
     consoleError "Logout failed:" error;;
     removeItem "token";;
     removeItem "userRole";;
     removeItem "userId";;
     removeItem "email";;
     setUser None).

End Logout.

Definition handleLogout (r : Readings) : M unit :=
  handleLogoutWith
    (λ userId username role action tokenName,
       logUserActivity userId username role action tokenName r).

(** *** checkAuth, run once on mount *)

(** The [try] block of [checkAuth]. *)
Definition checkAuthBody (handleLogout : M unit) : M unit :=
  token ← getItem "token";
  if truthy token then
    email ← getItem "email";
    if truthy email
    then setUser (Some (mkUser (default "" email) None None))
    else handleLogout
  else mret tt.

(** [try { body } catch (error) { ...; handleLogout() }
     finally { setLoading(false) }] *)
Definition checkAuthWith (body handleLogout : M unit) : M unit :=
  tryCatchFinally body
    (λ error,
     consoleError "Authentication check failed:" error;;
     handleLogout)
    (setLoading false).

Definition checkAuth (r : Readings) : M unit :=
  checkAuthWith (checkAuthBody (handleLogout r)) (handleLogout r).

(** *** login and signup *)

Definition login (email _password : string) (r : LoginReadings) : M Session :=
  tryCatch
    (let token := generateMockToken r in
     let userId :=
       if includes email "admin"
       then "admin-" +:+ pretty (idStamp r)
       else "user-" +:+ pretty (idStamp r) in
     let role := if includes email "admin" then "admin" else "user" in
     setItem "token" token;;
     setItem "userRole" role;;
     setItem "userId" userId;;
     setItem "email" email;;
     setUser (Some (mkUser email (Some userId) (Some role)));;
     logUserActivity userId email role "login"
       (Some (substring 0 20 token +:+ "...")) (activity r);;
     mret (mkSession email userId role))
    (λ error, consoleError "Login failed:" error;; throw error).

Definition signup (email _password : string) (r : LoginReadings) : M Session :=
  tryCatch
    (let token := generateMockToken r in
     let userId := "user-" +:+ pretty (idStamp r) in
     let role := "user" in
     setItem "token" token;;
     setItem "userRole" role;;
     setItem "userId" userId;;
     setItem "email" email;;
     setUser (Some (mkUser email (Some userId) (Some role)));;
     logUserActivity userId email role "login"
       (Some (substring 0 20 token +:+ "...")) (activity r);;
     mret (mkSession email userId role))
    (λ error, consoleError "Signup failed:" error;; throw error).

(** *** Role checks *)

(** [userRole === requiredRole], the left side being a string or [null]. *)
Definition hasRole (requiredRole : string) : M bool :=
  userRole ← getItem "userRole";
  mret (bool_decide (userRole = Some requiredRole)).

Definition isAdmin : M bool := hasRole "admin".

(** [!!user] *)
Definition isAuthenticated (w : World) : bool :=
  match user w with
  | Some _ => true
  | None => false
  end.

(** *** Sequences of calls of [logUserActivity] *)

Record Call : Type := mkCall {
  c_userId : string;
  c_username : string;
  c_role : string;
  c_action : string;
  c_tokenName : option string;
  c_readings : Readings
}.

Definition record (c : Call) : M unit :=
  logUserActivity (c_userId c) (c_username c) (c_role c) (c_action c)
    (c_tokenName c) (c_readings c).

Definition recordAll (cs : list Call) (w : World) : World :=
  foldl (λ w c, (record c w).2) w cs.

(** The log as [logUserActivity] reads it: [None] when the stored text is
    unreadable, the empty log when the key is absent. *)
Definition persistedLogs (s : Storage) : option (list LogEntry) :=
  match userLogs s with
  | None => Some []
  | Some (JsonLogs l) => Some l
  | Some Unreadable => None
  end.

(** The browser accepts any log next to the current session items. *)
Definition roomForLogs (w : World) : Prop :=
  ∀ l, fits (mkStorage (items (storage w)) (Some (JsonLogs l))) = true.

(** All four session keys are absent. *)
Definition sessionCleared (s : Storage) : Prop :=
  items s !! "token" = None ∧ items s !! "userRole" = None
  ∧ items s !! "userId" = None ∧ items s !! "email" = None.

(** A line written by [logUserActivity], on success or on failure. *)
Definition isActivityLine (action username : string) (c : ConsoleLine) : Prop :=
  c = ConsoleLog ("User activity logged: " +:+ action +:+ " for " +:+ username)
  ∨ ∃ error, c = ConsoleError "Failed to log user activity:" error.

(** The array [existingLogs] after the [if]/[else] block of
    [logUserActivity], before truncation. *)
Definition updatedLogs (userId username role action : string)
    (tokenName : option string) (r : Readings)
    (existingLogs : list LogEntry) : list LogEntry :=
  if String.eqb action "logout" then
    match findIndex (isOpenLogin userId) existingLogs with
    | Some loginLogIndex =>
        alter (closeEntry (isoUpdate r)) loginLogIndex existingLogs
    | None =>
        existingLogs ++ [newLog userId username role action tokenName r]
    end
  else existingLogs ++ [newLog userId username role action tokenName r].

(** The entry a call builds as [newLog]. *)
Definition entryOf (c : Call) : LogEntry :=
  newLog (c_userId c) (c_username c) (c_role c) (c_action c)
    (c_tokenName c) (c_readings c).

(** The readable log, if any, has at most 100 entries. *)
Definition boundedLog (w : World) : Prop :=
  ∀ l, persistedLogs (storage w) = Some l → length l ≤ 100.

(** An open login entry of a user, in the words of the glossary. *)
Definition openLoginOf (userId : string) (e : LogEntry) : Prop :=
  e_userId e = userId ∧ e_action e = "login" ∧ e_logoutTime e = None.

(** Timestamps that are set are not the empty string, as is every output
    of [toISOString]. *)
Definition stampedLog (log : list LogEntry) : Prop :=
  Forall (λ e, e_logoutTime e ≠ Some "") log.

(** The index the update path of a call writes to, if it takes it. *)
Definition mutatedIndex (c : Call) (log : list LogEntry) : option nat :=
  if String.eqb (c_action c) "logout"
  then findIndex (isOpenLogin (c_userId c)) log
  else None.

(** The world [handleLogout] leaves when its [try] block runs through
    from [w]: the four keys removed, no user, one console line. *)
Definition loggedOut (w : World) : World :=
  {| storage :=
       {| items := delete "email" (delete "userId" (delete "userRole"
                     (delete "token" (items (storage w)))));
          userLogs := userLogs (storage w) |};
     user := None;
     loading := loading w;
     console := console w ++ [ConsoleLog "User logged out"] |}.

(** The browser accepts the writes [kvs], one after the other. *)
Fixpoint acceptsAll (kvs : list (string * string)) (s : Storage) : Prop :=
  match kvs with
  | [] => True
  | (key, value) :: rest =>
      let s' := mkStorage (<[key := value]> (items s)) (userLogs s) in
      fits s' = true ∧ acceptsAll rest s'
  end.

(** *** Sample data *)

Definition sampleReadings (n : nat) : Readings :=
  {| dateNow := 1700000000000 + N.of_nat n;
     random36 := "k3x9q2m1z";
     isoNow := "2024-01-01T09:00:00.000Z";
     ipRandom := 41;
     isoUpdate := "2024-01-01T09:30:00.000Z" |}.

Definition syntheticLogin (n : nat) : Call :=
  {| c_userId := "u" +:+ pretty n;
     c_username := "user" +:+ pretty n +:+ "@x.com";
     c_role := "user";
     c_action := "login";
     c_tokenName := None;
     c_readings := sampleReadings n |}.

Definition syntheticCalls : list Call := syntheticLogin <$> seq 0 101.

(** A fresh browser profile, before the provider mounts. *)
Definition freshWorld : World :=
  {| storage := {| items := ∅; userLogs := None |};
     user := None;
     loading := true;
     console := [] |}.

(** A browser that never refuses a write. *)
Definition noQuota : Storage → bool := λ _, true.

(** A browser that refuses every write. *)
Definition fullDisk : Storage → bool := λ _, false.

(** The entry of a first login of "u1". *)
Definition firstLogin : LogEntry :=
  newLog "u1" "a@x.com" "user" "login" None (sampleReadings 0).

(** A profile whose log holds that open login. *)
Definition worldAfterLogin : World :=
  {| storage := {| items := ∅; userLogs := Some (JsonLogs [firstLogin]) |};
     user := None;
     loading := false;
     console := [] |}.

(** A profile left with a token and no email. *)
Definition worldTokenOnly : World :=
  {| storage := {| items := {[ "token" := "eyJ.e30.c2ln" ]}; userLogs := None |};
     user := None;
     loading := true;
     console := [] |}.

(** A profile with a full session for "u1". *)
Definition worldLoggedIn : World :=
  {| storage :=
       {| items := <["email" := "a@x.com"]> (<["userId" := "u1"]>
                     (<["userRole" := "user"]> {[ "token" := "eyJ.e30.c2ln" ]}));
          userLogs := Some (JsonLogs [firstLogin]) |};
     user := Some (mkUser "a@x.com" (Some "u1") (Some "user"));
     loading := false;
     console := [] |}.

Definition sampleLoginReadings : LoginReadings :=
  {| tokenPayload := "eyJzdWIiOiIxNzAwMDAwMDAwMDAwIn0=";
     tokenSignature := "bW9ja19zaWduYXR1cmVfazN4OXEybTF6";
     idStamp := 1700000000000;
     activity := sampleReadings 0 |}.

(** *** Mounting, and the session [login] and [signup] store *)

(** The component state when [AuthProvider] mounts over the storage [s]:
    the initial values of the two [useState] hooks, nothing printed. *)
Definition mountWorld (s : Storage) : World :=
  {| storage := s; user := initialUser s; loading := true; console := [] |}.

(** The role and the user id [login] computes from the email. *)
Definition loginRole (email : string) : string :=
  if includes email "admin" then "admin" else "user".

Definition loginUserId (email : string) (r : LoginReadings) : string :=
  if includes email "admin"
  then "admin-" +:+ pretty (idStamp r)
  else "user-" +:+ pretty (idStamp r).

(** The four [setItem] calls of [login] and [signup], in their order. *)
Definition sessionWrites (token role userId email : string)
    : list (string * string) :=
  [("token", token); ("userRole", role); ("userId", userId); ("email", email)].

(** The world after those writes and the [setUser] call. *)
Definition sessionStored (token role userId email : string) (w : World)
    : World :=
  {| storage :=
       {| items := <["email" := email]> (<["userId" := userId]>
                     (<["userRole" := role]>
                        (<["token" := token]> (items (storage w)))));
          userLogs := userLogs (storage w) |};
     user := Some (mkUser email (Some userId) (Some role));
     loading := loading w;
     console := console w |}.

(** The label [login] and [signup] pass as [tokenName]. *)
Definition tokenLabel (token : string) : option string :=
  Some (substring 0 20 token +:+ "...").

(** How many entries of a log [findIndex] would accept for a user. *)
Definition openLogins (userId : string) (log : list LogEntry) : nat :=
  length (List.filter (isOpenLogin userId) log).

(** The two shapes of an entry written by a login or a logout call: an
    open login, or an entry closed by or created for a logout. *)
Definition entryShape (e : LogEntry) : Prop :=
  (e_action e = "login" ∧ e_logoutTime e = None ∧ is_Some (e_loginTime e))
  ∨ (e_action e = "logout" ∧ is_Some (e_logoutTime e)).

Definition shapedLog (w : World) : Prop :=
  ∀ l, persistedLogs (storage w) = Some l → Forall entryShape l.

(** A profile whose stored log cannot be parsed. *)
Definition worldCorruptLog : World :=
  {| storage := {| items := ∅; userLogs := Some Unreadable |};
     user := None;
     loading := false;
     console := [] |}.

(** A browser that accepts session fields and refuses the log. *)
Definition noRoomForLogs : Storage → bool :=
  λ s, match userLogs s with
       | Some (JsonLogs (_ :: _)) => false
       | _ => true
       end.

(** A browser that accepts the token and nothing after it. *)
Definition tokenOnlyQuota : Storage → bool :=
  λ s, match items s !! "userRole" with
       | Some _ => false
       | None => true
       end.

(** Two open logins of "u1" and one of "u2". *)
Definition twoSessionsLog : list LogEntry :=
  [ newLog "u1" "a@x.com" "user" "login" None (sampleReadings 0);
    newLog "u2" "b@x.com" "user" "login" None (sampleReadings 1);
    newLog "u1" "a@x.com" "user" "login" None (sampleReadings 2) ].

Definition worldTwoSessions : World :=
  {| storage := {| items := ∅; userLogs := Some (JsonLogs twoSessionsLog) |};
     user := None;
     loading := false;
     console := [] |}.

(** ** Arrays *)

Section Arrays.
Context {A : Type}.
Implicit Types (l k : list A) (p : A → bool).

Lemma findIndex_Some p l i :
  findIndex p l = Some i ↔
  ∃ x, l !! i = Some x ∧ p x = true
       ∧ ∀ j y, j < i → l !! j = Some y → p y = false.
Proof.
  revert i. induction l as [|a l IH]; intros i; simpl.
  - split; [done | by intros (x & ? & _)].
  - destruct (p a) eqn:Hpa.
    + split.
      * intros [= <-]. exists a. repeat split; [done | lia].
      * intros (x & Hx & Hpx & Hmin). destruct i as [|i]; [done |].
        specialize (Hmin 0 a ltac:(lia) eq_refl). congruence.
    + split.
      * destruct (findIndex p l) as [i'|] eqn:Hf; [|done].
        intros [= <-]. destruct (IH i') as [(x & Hx & Hpx & Hmin) _]; [done |].
        exists x. repeat split; [done.. |].
        intros [|j] y Hj Hy; simpl in Hy; [congruence |].
        apply (Hmin j); [lia | done].
      * intros (x & Hx & Hpx & Hmin). destruct i as [|i].
        { simpl in Hx. congruence. }
        simpl in Hx.
        rewrite (proj2 (IH i)); [done |].
        exists x. repeat split; [done.. |].
        intros j y Hj Hy. apply (Hmin (S j)); [lia | done].
Qed.

Lemma findIndex_None p l :
  findIndex p l = None ↔ ∀ x, x ∈ l → p x = false.
Proof.
  induction l as [|a l IH]; simpl.
  - split; [|done]. intros _ x Hx. by apply elem_of_nil in Hx.
  - destruct (p a) eqn:Hpa.
    + split; [done |]. intros H. specialize (H a ltac:(left)). congruence.
    + destruct (findIndex p l) eqn:Hf; simpl.
      * split; [done |]. intros H.
        assert (Some n = None) as Hbad; [|done].
        apply IH. intros x Hx. apply H. by right.
      * split; [|done]. intros _ x [->|Hx]%elem_of_cons; [done |].
        by apply IH.
Qed.

Lemma findIndex_lt p l i : findIndex p l = Some i → i < length l.
Proof.
  intros (x & Hx & _)%findIndex_Some. by eapply lookup_lt_Some.
Qed.

Lemma sliceLast_short n l : length l ≤ n → sliceLast n l = l.
Proof.
  intros H. unfold sliceLast. by replace (length l - n) with 0 by lia.
Qed.

Lemma length_sliceLast n l : length (sliceLast n l) = length l `min` n.
Proof. unfold sliceLast. rewrite length_drop. lia. Qed.

Lemma sliceLast_app n l k :
  length k ≤ n → sliceLast n (l ++ k) = sliceLast (n - length k) l ++ k.
Proof.
  intros H. unfold sliceLast. rewrite length_app, drop_app.
  replace (length l + length k - n - length l) with 0 by lia.
  rewrite drop_0. f_equal. f_equal. lia.
Qed.

Lemma sliceLast_sliceLast n m l :
  m ≤ n → sliceLast m (sliceLast n l) = sliceLast m l.
Proof.
  intros H. unfold sliceLast. rewrite length_drop, drop_drop. f_equal. lia.
Qed.

(** Truncating after every append is truncating once at the end. *)
Lemma sliceLast_snoc n l k :
  length k ≤ n → sliceLast n (sliceLast n l ++ k) = sliceLast n (l ++ k).
Proof.
  intros H. rewrite !sliceLast_app by done.
  by rewrite sliceLast_sliceLast by lia.
Qed.

Lemma sliceLast_suffix n l : sliceLast n l `suffix_of` l.
Proof. apply suffix_drop. Qed.

Lemma lookup_sliceLast n l i :
  sliceLast n l !! i = l !! (length l - n + i).
Proof. apply lookup_drop. Qed.

End Arrays.

(** ** Strings *)




(** ** What one call of [logUserActivity] does *)

Lemma logUserActivity_unfold userId username role action tokenName r w :
  logUserActivity userId username role action tokenName r w =
  match persistedLogs (storage w) with
  | None =>
      (inr tt,
       withConsole
         (console w ++ [ConsoleError "Failed to log user activity:" SyntaxError])
         w)
  | Some l =>
      let s := mkStorage (items (storage w))
                 (Some (JsonLogs (sliceLast 100
                    (updatedLogs userId username role action tokenName r l)))) in
      if fits s
      then (inr tt,
            withConsole
              (console w ++
               [ConsoleLog ("User activity logged: " +:+ action +:+ " for "
                            +:+ username)])
              (withStorage s w))
      else (inr tt,
            withConsole
              (console w ++
               [ConsoleError "Failed to log user activity:" QuotaExceededError])
              w)
  end.
Proof.
  unfold logUserActivity, tryCatch, mbind, M_bind, bind, readUserLogs,
    writeUserLogs, persistedLogs, updatedLogs, consoleLog, consoleError.
  destruct (userLogs (storage w)) as [[l|]|]; simpl; try done.
  - by destruct (fits _).
  - by destruct (fits _).
Qed.

(** The call returns normally and touches only the log and the console. *)
Lemma logUserActivity_frame userId username role action tokenName r w :
  ∃ w', logUserActivity userId username role action tokenName r w = (inr tt, w')
        ∧ items (storage w') = items (storage w)
        ∧ user w' = user w ∧ loading w' = loading w.
Proof.
  rewrite logUserActivity_unfold.
  destruct (persistedLogs (storage w)) as [l|]; simpl.
  - destruct (fits _); eauto.
  - eauto.
Qed.

Lemma logUserActivity_persisted userId username role action tokenName r w l :
  persistedLogs (storage w) = Some l →
  roomForLogs w →
  persistedLogs
    (storage (logUserActivity userId username role action tokenName r w).2)
  = Some (sliceLast 100 (updatedLogs userId username role action tokenName r l)).
Proof.
  intros Hl Hroom. rewrite logUserActivity_unfold, Hl. simpl.
  by rewrite Hroom.
Qed.

Lemma logUserActivity_roomForLogs userId username role action tokenName r w :
  roomForLogs w →
  roomForLogs (logUserActivity userId username role action tokenName r w).2.
Proof.
  intros Hroom l.
  destruct (logUserActivity_frame userId username role action tokenName r w)
    as (w' & Heq & Hitems & _).
  rewrite Heq. simpl. rewrite Hitems. apply Hroom.
Qed.

Lemma record_bounded c w : boundedLog w → boundedLog (record c w).2.
Proof.
  intros Hw l. unfold record. rewrite logUserActivity_unfold.
  destruct (persistedLogs (storage w)) as [l0|] eqn:Hl0; simpl.
  - destruct (fits _); simpl.
    + intros [= <-]. rewrite length_sliceLast. lia.
    + rewrite Hl0. intros [= <-]. by apply Hw.
  - by rewrite Hl0.
Qed.

Lemma recordAll_bounded cs w : boundedLog w → boundedLog (recordAll cs w).
Proof.
  revert w. induction cs as [|c cs IH]; intros w Hw; simpl; [done |].
  apply IH. by apply record_bounded.
Qed.

Lemma sliceLast_drop_app {A : Type} n m (l k : list A) :
  m ≤ length l - n → sliceLast n (drop m l ++ k) = sliceLast n (l ++ k).
Proof.
  intros Hm. unfold sliceLast.
  rewrite !drop_app, !length_app, !length_drop, drop_drop.
  f_equal; f_equal; lia.
Qed.

(** A run of logins appends one entry per call and keeps the last 100. *)
Lemma recordAll_logins c cs w l0 :
  persistedLogs (storage w) = Some l0 →
  roomForLogs w →
  Forall (λ c, c_action c = "login") (c :: cs) →
  persistedLogs (storage (recordAll (c :: cs) w))
  = Some (sliceLast 100 (l0 ++ (entryOf <$> c :: cs))).
Proof.
  revert c w l0. induction cs as [|c' cs IH]; intros c w l0 Hl0 Hroom Hall.
  - simpl. unfold record.
    rewrite (logUserActivity_persisted _ _ _ _ _ _ _ l0) by done.
    apply Forall_cons in Hall as [Hc _].
    unfold updatedLogs, entryOf. by rewrite Hc.
  - apply Forall_cons in Hall as [Hc Hall].
    change (recordAll (c :: c' :: cs) w)
      with (recordAll (c' :: cs) (record c w).2).
    rewrite (IH c' _ (sliceLast 100 (l0 ++ [entryOf c]))).
    + f_equal. unfold sliceLast at 2.
      rewrite sliceLast_drop_app by done.
      by rewrite <- app_assoc.
    + unfold record.
      rewrite (logUserActivity_persisted _ _ _ _ _ _ _ l0) by done.
      unfold updatedLogs, entryOf. by rewrite Hc.
    + by apply logUserActivity_roomForLogs.
    + done.
Qed.

(** ** The claims *)

(** C1. The readable log never exceeds 100 entries: (1) along every
    sequence of calls, for every quota, a log within the bound stays
    within it; (2) a call whose write is accepted persists the last 100
    entries of the array it has built (the old log with the new entry
    pushed, or with the matched entry closed in place): position [i] of
    the stored log is position [length - 100 + i] of that array, so what
    is dropped is its oldest prefix, whatever the length before; (3) after 101 logins with distinct user ids the log is
    exactly the entries of calls 2 to 101: 100 entries, none of them from
    the first call. *)
Theorem activity_log_bounded :
  (∀ (cs : list Call) (w : World) (n : nat),
     boundedLog w → boundedLog (recordAll (take n cs) w))
  ∧ (∀ (c : Call) (w : World) (l : list LogEntry),
       persistedLogs (storage w) = Some l →
       roomForLogs w →
       let updated :=
         updatedLogs (c_userId c) (c_username c) (c_role c) (c_action c)
           (c_tokenName c) (c_readings c) l in
       (mutatedIndex c l = None → updated = l ++ [entryOf c])
       ∧ (∀ i, mutatedIndex c l = Some i →
            updated = alter (closeEntry (isoUpdate (c_readings c))) i l)
       ∧ ∃ l',
           persistedLogs (storage (record c w).2) = Some l'
           ∧ l' = drop (length updated - 100) updated
           ∧ l' `suffix_of` updated
           ∧ length l' = length updated `min` 100
           ∧ length l' ≤ 100
           ∧ ∀ i, l' !! i = updated !! (length updated - 100 + i))
  ∧ (∀ (cs : list Call) (w : World) (l0 : list LogEntry),
       persistedLogs (storage w) = Some l0 →
       roomForLogs w →
       length cs = 101 →
       Forall (λ c, c_action c = "login") cs →
       NoDup (c_userId <$> cs) →
       ∃ first rest l,
         cs = first :: rest
         ∧ persistedLogs (storage (recordAll cs w)) = Some l
         ∧ l = (entryOf <$> rest)
         ∧ length l = 100
         ∧ (entryOf first ∉ l)
         ∧ ∀ e, e ∈ l → e_userId e ≠ c_userId first).
Proof.
  split; [|split].
  - intros cs w n Hw. by apply recordAll_bounded.
  - intros c w l Hl Hroom updated.
    split; [|split].
    + unfold updated, updatedLogs, mutatedIndex, entryOf.
      destruct (String.eqb (c_action c) "logout"); [|done].
      by intros ->.
    + intros i. unfold updated, updatedLogs, mutatedIndex.
      destruct (String.eqb (c_action c) "logout"); [|done].
      by intros ->.
    + exists (sliceLast 100 updated).
      split; [by apply logUserActivity_persisted |].
      split; [done |]. split; [apply sliceLast_suffix |].
      split; [apply length_sliceLast |].
      split; [rewrite length_sliceLast; lia |].
      intros i. apply lookup_sliceLast.
  - intros cs w l0 Hl0 Hroom Hlen Hall Hnodup.
    destruct cs as [|first rest]; [done |].
    exists first, rest, (entryOf <$> rest).
    assert (length rest = 100) as Hrest by (simpl in Hlen; lia).
    assert (∀ e, e ∈ (entryOf <$> rest) → e_userId e ≠ c_userId first) as Hfresh.
    { intros e (c & -> & Hc)%list_elem_of_fmap. simpl.
      rewrite fmap_cons in Hnodup. apply NoDup_cons in Hnodup as [Hnotin _].
      intros Heq. apply Hnotin. rewrite <- Heq.
      apply list_elem_of_fmap. by exists c. }
    split; [done |]. split; [|split; [done |split; [|split; [|done]]]].
    + rewrite (recordAll_logins _ _ _ l0) by done.
      f_equal. rewrite fmap_cons.
      change (entryOf first :: (entryOf <$> rest))
        with ([entryOf first] ++ (entryOf <$> rest)).
      rewrite app_assoc, sliceLast_app by (rewrite length_fmap; lia).
      rewrite length_fmap, Hrest. unfold sliceLast.
      by rewrite Nat.sub_0_r, drop_all.
    + by rewrite length_fmap.
    + intros Hin. by apply (Hfresh _ Hin).
Qed.

Lemma isOpenLogin_spec userId e :
  e_logoutTime e ≠ Some "" →
  isOpenLogin userId e = true ↔ openLoginOf userId e.
Proof.
  intros Hstamp. unfold isOpenLogin, openLoginOf.
  rewrite !andb_true_iff, negb_true_iff, !String.eqb_eq.
  destruct (e_logoutTime e) as [t|]; simpl; [|tauto].
  destruct (String.eqb_spec t "") as [->|Hne]; simpl; [done |].
  split; [intros (_ & [=]) | intros (_ & _ & [=])].
Qed.

(** C2. A logout call on a well-formed log (at most 100 entries, set
    timestamps non-empty) whose write is accepted: when the log holds an
    open login entry of the user, the first one in scan order is updated
    where it stands (same id, logoutTime the current time, action
    "logout"), every other position is as before and the length is
    unchanged, so nothing is appended; when it holds none, the log gains
    as last entry a logout entry with logoutTime set and loginTime null. *)
Theorem logout_reconciles userId username role tokenName r w log :
  persistedLogs (storage w) = Some log →
  roomForLogs w →
  length log ≤ 100 →
  stampedLog log →
  ∃ log',
    persistedLogs
      (storage (logUserActivity userId username role "logout" tokenName r w).2)
    = Some log'
    ∧ ((∃ e, e ∈ log ∧ openLoginOf userId e) →
       ∃ i e e',
         log !! i = Some e ∧ openLoginOf userId e
         ∧ (∀ j x, j < i → log !! j = Some x → ¬ openLoginOf userId x)
         ∧ log' !! i = Some e'
         ∧ e_id e' = e_id e
         ∧ e_logoutTime e' = Some (isoUpdate r)
         ∧ e_action e' = "logout"
         ∧ length log' = length log
         ∧ ∀ j, j ≠ i → log' !! j = log !! j)
    ∧ ((¬ ∃ e, e ∈ log ∧ openLoginOf userId e) →
       ∃ n,
         log' = drop (length log + 1 - 100) log ++ [n]
         ∧ last log' = Some n
         ∧ e_userId n = userId
         ∧ e_action n = "logout"
         ∧ e_logoutTime n = Some (isoNow r)
         ∧ e_loginTime n = None).
Proof.
  intros Hlog Hroom Hlen Hstamp.
  eexists. split; [by apply logUserActivity_persisted |].
  unfold updatedLogs. simpl.
  destruct (findIndex (isOpenLogin userId) log) as [i|] eqn:Hfind.
  - split.
    + intros _. apply findIndex_Some in Hfind as (e & Hi & Hopen & Hmin).
      assert (e_logoutTime e ≠ Some "") as He.
      { eapply Forall_forall in Hstamp; [done |]. by eapply list_elem_of_lookup_2. }
      exists i, e, (closeEntry (isoUpdate r) e).
      rewrite sliceLast_short by (rewrite length_alter; lia).
      split; [done |]. split; [by apply isOpenLogin_spec |].
      split.
      { intros j x Hj Hx Hopenx.
        assert (e_logoutTime x ≠ Some "") as Hsx.
        { eapply Forall_forall in Hstamp; [done |].
          by eapply list_elem_of_lookup_2. }
        apply isOpenLogin_spec in Hopenx; [|done].
        specialize (Hmin j x Hj Hx). congruence. }
      split; [by rewrite list_lookup_alter_eq, Hi |].
      repeat split; [apply length_alter |].
      intros j Hj. by apply list_lookup_alter_ne.
    + intros Hnone. exfalso. apply Hnone.
      apply findIndex_Some in Hfind as (e & Hi & Hopen & _).
      exists e. split; [by eapply list_elem_of_lookup_2 |].
      apply isOpenLogin_spec; [|done].
      eapply Forall_forall in Hstamp; [done |]. by eapply list_elem_of_lookup_2.
  - split.
    + intros (e & He & Hopen). exfalso.
      rewrite findIndex_None in Hfind. specialize (Hfind e He).
      apply isOpenLogin_spec in Hopen; [congruence |].
      by eapply Forall_forall in Hstamp.
    + intros _. exists (newLog userId username role "logout" tokenName r).
      split; [|split; [|done]].
      * rewrite sliceLast_app by (simpl; lia). unfold sliceLast. simpl.
        do 2 f_equal. lia.
      * rewrite sliceLast_app by (simpl; lia). apply last_snoc.
Qed.

(** C3. A login call whose write is accepted appends, whatever the log
    holds, a new last entry with loginTime the current time and
    logoutTime null; two logins in a row for one user id leave two
    separate open login entries at the end of the log. *)
Theorem login_always_appends userId username role tokenName r w log :
  persistedLogs (storage w) = Some log →
  roomForLogs w →
  let n := newLog userId username role "login" tokenName r in
  let w' := (logUserActivity userId username role "login" tokenName r w).2 in
  persistedLogs (storage w') = Some (sliceLast 100 (log ++ [n]))
  ∧ (∃ kept, kept `suffix_of` log ∧ sliceLast 100 (log ++ [n]) = kept ++ [n])
  ∧ e_userId n = userId
  ∧ e_action n = "login"
  ∧ e_loginTime n = Some (isoNow r)
  ∧ e_logoutTime n = None
  ∧ ∀ username2 role2 tokenName2 r2,
      let n2 := newLog userId username2 role2 "login" tokenName2 r2 in
      ∃ kept,
        persistedLogs
          (storage
             (logUserActivity userId username2 role2 "login" tokenName2 r2 w').2)
        = Some (kept ++ [n; n2])
        ∧ kept `suffix_of` log
        ∧ openLoginOf userId n ∧ openLoginOf userId n2.
Proof.
  intros Hlog Hroom n w'.
  assert (persistedLogs (storage w') = Some (sliceLast 100 (log ++ [n]))) as Hw'.
  { subst w'. by rewrite (logUserActivity_persisted _ _ _ _ _ _ _ log). }
  split; [done |]. split.
  { exists (sliceLast 99 log). split; [apply sliceLast_suffix |].
    by rewrite sliceLast_app by (simpl; lia). }
  repeat split.
  intros username2 role2 tokenName2 r2 n2.
  exists (sliceLast 98 log). split; [|split; [apply sliceLast_suffix | done]].
  rewrite (logUserActivity_persisted _ _ _ _ _ _ _ _ Hw')
    by (by apply logUserActivity_roomForLogs).
  unfold updatedLogs. simpl. fold n2.
  rewrite sliceLast_snoc by (simpl; lia).
  rewrite <- app_assoc. simpl.
  by rewrite sliceLast_app by (simpl; lia).
Qed.

(** C9. Frame of one call on a log of at most 100 entries whose write is
    accepted.  On the update path the length is unchanged, every position
    but the matched one holds the entry it held, and the matched entry
    keeps its id, userId, username, role, loginTime, ipAddress and
    tokenName.  On the append path the old entries that remain are a
    suffix of the old log, unchanged and in their order, followed by the
    new entry. *)
Theorem record_frame c w log :
  persistedLogs (storage w) = Some log →
  roomForLogs w →
  length log ≤ 100 →
  ∃ log',
    persistedLogs (storage (record c w).2) = Some log'
    ∧ match mutatedIndex c log with
      | Some i =>
          length log' = length log
          ∧ (∀ j, j ≠ i → log' !! j = log !! j)
          ∧ ∃ e e',
              log !! i = Some e ∧ log' !! i = Some e'
              ∧ e_id e' = e_id e
              ∧ e_userId e' = e_userId e
              ∧ e_username e' = e_username e
              ∧ e_role e' = e_role e
              ∧ e_loginTime e' = e_loginTime e
              ∧ e_ipAddress e' = e_ipAddress e
              ∧ e_tokenName e' = e_tokenName e
      | None =>
          ∃ kept,
            log' = kept ++ [entryOf c]
            ∧ kept = drop (length log + 1 - 100) log
            ∧ ∀ j, kept !! j = log !! (length log + 1 - 100 + j)
      end.
Proof.
  intros Hlog Hroom Hlen.
  eexists. split; [by apply logUserActivity_persisted |].
  unfold mutatedIndex, updatedLogs.
  assert (sliceLast 100 (log ++ [entryOf c])
          = drop (length log + 1 - 100) log ++ [entryOf c]) as Happend.
  { rewrite sliceLast_app by (simpl; lia). unfold sliceLast. simpl.
    do 2 f_equal. lia. }
  destruct (String.eqb (c_action c) "logout"); [|by eauto using lookup_drop].
  destruct (findIndex (isOpenLogin (c_userId c)) log) as [i|] eqn:Hfind;
    [|by eauto using lookup_drop].
  apply findIndex_Some in Hfind as (e & Hi & _).
  rewrite sliceLast_short by (rewrite length_alter; lia).
  split; [apply length_alter |].
  split; [intros j Hj; by apply list_lookup_alter_ne |].
  exists e, (closeEntry (isoUpdate (c_readings c)) e).
  split; [done |]. split; [by rewrite list_lookup_alter_eq, Hi | done].
Qed.

(** ** Logout *)

Lemma removed_all_four (m : gmap string string) logs :
  sessionCleared
    (mkStorage
       (delete "email" (delete "userId" (delete "userRole" (delete "token" m))))
       logs).
Proof. unfold sessionCleared; simpl. repeat split; by simplify_map_eq. Qed.

Lemma handleLogoutWith_clears logActivity w :
  ∃ w', handleLogoutWith logActivity w = (inr tt, w')
        ∧ sessionCleared (storage w') ∧ user w' = None.
Proof.
  unfold handleLogoutWith, tryCatch, mbind, M_bind, bind, getItem, removeItem,
    setUser, consoleLog, consoleError, mret, M_ret, ret.
  simpl.
  destruct (truthy _ && truthy _ && truthy _).
  - destruct (logActivity _ _ _ _ _ w) as [[e|[]] w1]; simpl;
      eexists; (split; [reflexivity |]); simpl;
      (split; [apply removed_all_four | done]).
  - eexists. split; [reflexivity |]. simpl.
    split; [apply removed_all_four | done].
Qed.

Lemma handleLogout_run r w :
  let userId := items (storage w) !! "userId" in
  let email := items (storage w) !! "email" in
  let role := items (storage w) !! "userRole" in
  handleLogout r w =
  (inr tt,
   loggedOut
     (if truthy userId && truthy email && truthy role
      then (logUserActivity (default "" userId) (default "" email)
              (default "" role) "logout" None r w).2
      else w)).
Proof.
  intros userId email role.
  unfold handleLogout, handleLogoutWith, tryCatch, mbind, M_bind, bind at 1 2 3,
    getItem.
  simpl. fold userId email role.
  destruct (truthy userId && truthy email && truthy role).
  - destruct (logUserActivity_frame (default "" userId) (default "" email)
                (default "" role) "logout" None r w) as (w1 & Heq & _).
    unfold bind at 1. rewrite Heq. reflexivity.
  - reflexivity.
Qed.

Lemma logUserActivity_console userId username role action tokenName r w :
  ∃ a, isActivityLine action username a
       ∧ console (logUserActivity userId username role action tokenName r w).2
         = console w ++ [a].
Proof.
  rewrite logUserActivity_unfold. unfold isActivityLine.
  destruct (persistedLogs (storage w)) as [l|]; simpl; [|by eauto].
  destruct (fits _); simpl; eauto.
Qed.

Lemma logUserActivity_withUser userId username role action tokenName r usr w :
  (logUserActivity userId username role action tokenName r (withUser usr w)).2
  = withUser usr (logUserActivity userId username role action tokenName r w).2.
Proof.
  rewrite !logUserActivity_unfold. simpl.
  destruct (persistedLogs (storage w)) as [l|]; simpl; [|done].
  by destruct (fits _).
Qed.

Lemma truthy_Some v : truthy v = true ↔ ∃ s, v = Some s ∧ s ≠ "".
Proof.
  destruct v as [s|]; simpl.
  - destruct (String.eqb_spec s "") as [->|Hne]; simpl.
    + split; [done |]. by intros (s & [= <-] & Hs).
    + split; [by eauto |done].
  - split; [done |]. by intros (s & [=] & _).
Qed.

Lemma handleLogout_clears r w :
  ∃ w', handleLogout r w = (inr tt, w')
        ∧ sessionCleared (storage w') ∧ user w' = None.
Proof. apply handleLogoutWith_clears. Qed.

(** C7. [handleLogout] returns normally, with the four session keys
    removed and no user in memory: for every callback in the place of
    [logUserActivity], also one that throws or writes to the storage, and
    so for the callback of the code, which itself never throws; in
    particular when the stored log is unreadable or the browser refuses
    every write. *)
Theorem logout_always_clears :
  (∀ (logActivity : string → string → string → string → option string → M unit)
     (w : World),
     ∃ w', handleLogoutWith logActivity w = (inr tt, w')
           ∧ sessionCleared (storage w') ∧ user w' = None)
  ∧ (∀ userId username role action tokenName r w,
       ∃ w', logUserActivity userId username role action tokenName r w
             = (inr tt, w'))
  ∧ (∀ r w,
       ∃ w', handleLogout r w = (inr tt, w')
             ∧ sessionCleared (storage w') ∧ user w' = None
             ∧ isAuthenticated w' = false).
Proof.
  split; [|split].
  - apply handleLogoutWith_clears.
  - intros userId username role action tokenName r w.
    destruct (logUserActivity_frame userId username role action tokenName r w)
      as (w' & Heq & _). eauto.
  - intros r w.
    destruct (handleLogout_clears r w) as (w' & Heq & Hcleared & Huser).
    exists w'. split; [done |]. split; [done |]. split; [done |].
    unfold isAuthenticated. by rewrite Huser.
Qed.

(** C8. [handleLogout] takes user id, email and role from the storage:
    when all three are non-empty strings it calls [logUserActivity] with
    them and action "logout" before clearing, and the console shows the
    line of that call; when one is missing or empty it calls nothing, the
    log is untouched, and it clears all the same.  The user held in
    memory has no influence. *)
Theorem logout_emits_iff_identified r w :
  let userId := items (storage w) !! "userId" in
  let email := items (storage w) !! "email" in
  let role := items (storage w) !! "userRole" in
  let identified := truthy userId && truthy email && truthy role in
  ∃ w',
    handleLogout r w = (inr tt, w')
    ∧ sessionCleared (storage w') ∧ user w' = None
    ∧ (identified = true ↔
       (∃ u, userId = Some u ∧ u ≠ "") ∧ (∃ e, email = Some e ∧ e ≠ "")
       ∧ (∃ ro, role = Some ro ∧ ro ≠ ""))
    ∧ (identified = true →
       ∃ u e ro,
         userId = Some u ∧ email = Some e ∧ role = Some ro
         ∧ w' = loggedOut (logUserActivity u e ro "logout" None r w).2)
    ∧ (identified = false →
       w' = loggedOut w ∧ userLogs (storage w') = userLogs (storage w))
    ∧ ((∃ a username,
          isActivityLine "logout" username a
          ∧ console w' = console w ++ [a; ConsoleLog "User logged out"])
       ↔ identified = true)
    ∧ ∀ usr, handleLogout r (withUser usr w) = (inr tt, w').
Proof.
  intros userId email role identified.
  eexists. split; [apply handleLogout_run |].
  fold userId email role identified.
  split; [apply removed_all_four |]. split; [done |].
  split.
  { unfold identified. rewrite !andb_true_iff, !truthy_Some. tauto. }
  split.
  { intros Hid. rewrite Hid.
    unfold identified in Hid. rewrite !andb_true_iff, !truthy_Some in Hid.
    destruct Hid as [[(u & -> & _) (e & -> & _)] (ro & -> & _)].
    by exists u, e, ro. }
  split.
  { intros Hid. by rewrite Hid. }
  split.
  { destruct identified eqn:Hid.
    - split; [done |]. intros _.
      destruct (logUserActivity_console (default "" userId) (default "" email)
                  (default "" role) "logout" None r w) as (a & Ha & Hconsole).
      exists a, (default "" email). split; [done |].
      simpl. rewrite Hconsole. by rewrite <- app_assoc.
    - split; [|done]. intros (a & username & _ & Hconsole).
      simpl in Hconsole. by apply app_inv_head in Hconsole. }
  intros usr. rewrite handleLogout_run. simpl.
  fold userId email role identified.
  destruct identified; [|done].
  by rewrite logUserActivity_withUser.
Qed.

(** C10. Once [handleLogout] has run, [hasRole] answers false for every
    role, [isAdmin] included, and nobody is authenticated. *)
Theorem no_role_after_logout r w requiredRole :
  ∃ w',
    handleLogout r w = (inr tt, w')
    ∧ items (storage w') !! "userRole" = None
    ∧ hasRole requiredRole w' = (inr false, w')
    ∧ isAdmin w' = (inr false, w')
    ∧ user w' = None
    ∧ isAuthenticated w' = false.
Proof.
  eexists. split; [apply handleLogout_run |].
  split; [by simplify_map_eq |].
  unfold isAdmin, hasRole, mbind, M_bind, bind, getItem, mret, M_ret, ret.
  simpl. rewrite lookup_delete_ne, lookup_delete_ne, lookup_delete_eq by done.
  done.
Qed.

(** ** Restore, role checks, login *)

(** C4. [checkAuth] with a token stored and no email ends with no user
    in memory, the four session keys removed and the loading gate open.
    It returns normally from every world; and whatever its [try] block
    might throw, the handler ends in the same cleared state. *)
Theorem restore_inconsistent_clears :
  (∀ r w,
     truthy (items (storage w) !! "token") = true →
     truthy (items (storage w) !! "email") = false →
     ∃ w', checkAuth r w = (inr tt, w')
           ∧ user w' = None ∧ isAuthenticated w' = false
           ∧ sessionCleared (storage w') ∧ loading w' = false)
  ∧ (∀ r w, ∃ w', checkAuth r w = (inr tt, w') ∧ loading w' = false)
  ∧ (∀ (body : M unit) r w error w1,
       body w = (inl error, w1) →
       ∃ w', checkAuthWith body (handleLogout r) w = (inr tt, w')
             ∧ user w' = None ∧ isAuthenticated w' = false
             ∧ sessionCleared (storage w') ∧ loading w' = false).
Proof.
  split; [|split].
  - intros r w Htoken Hemail.
    unfold checkAuth, checkAuthWith, checkAuthBody, tryCatchFinally, tryCatch,
      mbind, M_bind, bind, getItem.
    rewrite Htoken, Hemail.
    destruct (handleLogout_clears r w) as (w' & -> & Hcleared & Huser).
    exists (setLoading false w'). unfold isAuthenticated. simpl.
    by rewrite Huser.
  - intros r w.
    unfold checkAuth, checkAuthWith, checkAuthBody, tryCatchFinally, tryCatch,
      mbind, M_bind, bind, getItem, setUser, mret, M_ret, ret.
    destruct (truthy (items (storage w) !! "token")); [|by eauto].
    destruct (truthy (items (storage w) !! "email")); [by eauto |].
    destruct (handleLogout_clears r w) as (w' & -> & _). by eauto.
  - intros body r w error w1 Hbody.
    unfold checkAuthWith, tryCatchFinally, tryCatch, mbind, M_bind, bind,
      consoleError.
    rewrite Hbody.
    destruct (handleLogout_clears r
                (withConsole
                   (console w1
                    ++ [ConsoleError "Authentication check failed:" error]) w1))
      as (w' & -> & Hcleared & Huser).
    exists (setLoading false w'). unfold isAuthenticated. simpl.
    by rewrite Huser.
Qed.

(** C5. [hasRole] returns normally, leaves the world as it is, and
    answers true exactly when the stored role is the required string,
    character for character; [isAdmin] is the case "admin". *)
Theorem hasRole_exact requiredRole w :
  (∃ b, hasRole requiredRole w = (inr b, w)
        ∧ (b = true ↔ items (storage w) !! "userRole" = Some requiredRole))
  ∧ (∃ b, isAdmin w = (inr b, w)
          ∧ (b = true ↔ items (storage w) !! "userRole" = Some "admin")).
Proof.
  unfold isAdmin, hasRole, mbind, M_bind, bind, getItem, mret, M_ret, ret.
  split; eexists; (split; [reflexivity |]); apply bool_decide_eq_true.
Qed.


(** ** Further properties: login and signup *)

Lemma login_run email password r w :
  acceptsAll
    (sessionWrites (generateMockToken r) (loginRole email)
       (loginUserId email r) email) (storage w) →
  login email password r w
  = (inr (mkSession email (loginUserId email r) (loginRole email)),
     (logUserActivity (loginUserId email r) email (loginRole email) "login"
        (tokenLabel (generateMockToken r)) (activity r)
        (sessionStored (generateMockToken r) (loginRole email)
           (loginUserId email r) email w)).2).
Proof.
  intros (H1 & H2 & H3 & H4 & _). simpl in H1, H2, H3, H4.
  destruct (logUserActivity_frame (loginUserId email r) email (loginRole email)
              "login" (tokenLabel (generateMockToken r)) (activity r)
              (sessionStored (generateMockToken r) (loginRole email)
                 (loginUserId email r) email w)) as (w' & Hlog & _).
  rewrite Hlog.
  unfold login, tryCatch, mbind, M_bind, bind, setItem, setUser, mret, M_ret,
    ret.
  fold (loginRole email) (loginUserId email r).
  cbn [storage items userLogs withStorage withUser user loading console].
  rewrite H1. cbn [storage items userLogs withStorage user loading console].
  rewrite H2. cbn [storage items userLogs withStorage user loading console].
  rewrite H3. cbn [storage items userLogs withStorage user loading console].
  rewrite H4. cbn [storage items userLogs withStorage user loading console].
  change (logUserActivity _ _ _ _ _ _ _) with
    (logUserActivity (loginUserId email r) email (loginRole email) "login"
       (tokenLabel (generateMockToken r)) (activity r)
       (sessionStored (generateMockToken r) (loginRole email)
          (loginUserId email r) email w)).
  by rewrite Hlog.
Qed.

Lemma signup_run email password r w :
  acceptsAll
    (sessionWrites (generateMockToken r) "user"
       ("user-" +:+ pretty (idStamp r)) email) (storage w) →
  signup email password r w
  = (inr (mkSession email ("user-" +:+ pretty (idStamp r)) "user"),
     (logUserActivity ("user-" +:+ pretty (idStamp r)) email "user" "login"
        (tokenLabel (generateMockToken r)) (activity r)
        (sessionStored (generateMockToken r) "user"
           ("user-" +:+ pretty (idStamp r)) email w)).2).
Proof.
  intros (H1 & H2 & H3 & H4 & _). simpl in H1, H2, H3, H4.
  destruct (logUserActivity_frame ("user-" +:+ pretty (idStamp r)) email "user"
              "login" (tokenLabel (generateMockToken r)) (activity r)
              (sessionStored (generateMockToken r) "user"
                 ("user-" +:+ pretty (idStamp r)) email w)) as (w' & Hlog & _).
  rewrite Hlog.
  unfold signup, tryCatch, mbind, M_bind, bind, setItem, setUser, mret, M_ret,
    ret.
  cbn [storage items userLogs withStorage withUser user loading console].
  rewrite H1. cbn [storage items userLogs withStorage user loading console].
  rewrite H2. cbn [storage items userLogs withStorage user loading console].
  rewrite H3. cbn [storage items userLogs withStorage user loading console].
  rewrite H4. cbn [storage items userLogs withStorage user loading console].
  change (logUserActivity _ _ _ _ _ _ _) with
    (logUserActivity ("user-" +:+ pretty (idStamp r)) email "user" "login"
       (tokenLabel (generateMockToken r)) (activity r)
       (sessionStored (generateMockToken r) "user"
          ("user-" +:+ pretty (idStamp r)) email w)).
  by rewrite Hlog.
Qed.

(** The session keys after the activity call that ends [login] and
    [signup]. *)
Lemma logged_session_items userId username role action tokenName r
    token srole suserId email w :
  items (storage (logUserActivity userId username role action tokenName r
                    (sessionStored token srole suserId email w)).2)
  = <["email" := email]> (<["userId" := suserId]>
      (<["userRole" := srole]> (<["token" := token]> (items (storage w))))).
Proof.
  destruct (logUserActivity_frame userId username role action tokenName r
              (sessionStored token srole suserId email w))
    as (w' & Heq & Hitems & _).
  rewrite Heq. simpl. by rewrite Hitems.
Qed.

Lemma logged_session_user userId username role action tokenName r
    token srole suserId email w :
  user (logUserActivity userId username role action tokenName r
          (sessionStored token srole suserId email w)).2
  = Some (mkUser email (Some suserId) (Some srole)).
Proof.
  destruct (logUserActivity_frame userId username role action tokenName r
              (sessionStored token srole suserId email w))
    as (w' & Heq & _ & Huser & _).
  rewrite Heq. simpl. by rewrite Huser.
Qed.

(** X1. [signup], when the four writes are accepted, stores and returns
    the role "user" and an id "user-" and the timestamp for every email,
    also one containing "admin": [isAdmin] answers false afterwards. *)
Theorem signup_never_admin email password r w :
  acceptsAll
    (sessionWrites (generateMockToken r) "user"
       ("user-" +:+ pretty (idStamp r)) email) (storage w) →
  ∃ w',
    signup email password r w
    = (inr (mkSession email ("user-" +:+ pretty (idStamp r)) "user"), w')
    ∧ items (storage w') !! "userRole" = Some "user"
    ∧ items (storage w') !! "userId" = Some ("user-" +:+ pretty (idStamp r))
    ∧ items (storage w') !! "email" = Some email
    ∧ items (storage w') !! "token" = Some (generateMockToken r)
    ∧ user w'
      = Some (mkUser email (Some ("user-" +:+ pretty (idStamp r))) (Some "user"))
    ∧ isAdmin w' = (inr false, w').
Proof.
  intros Hfit. eexists. split; [by apply signup_run |].
  rewrite logged_session_items, logged_session_user.
  repeat split; try by simplify_map_eq.
  unfold isAdmin, hasRole, mbind, M_bind, bind, getItem, mret, M_ret, ret.
  rewrite logged_session_items. by simplify_map_eq.
Qed.

(** X2. For an email that does not contain "admin", [signup] and [login]
    return the same result and leave the same storage and the same user,
    whether the writes are accepted or not. *)
Theorem signup_agrees_with_login email password r w :
  includes email "admin" = false →
  (signup email password r w).1 = (login email password r w).1
  ∧ storage (signup email password r w).2 = storage (login email password r w).2
  ∧ user (signup email password r w).2 = user (login email password r w).2.
Proof.
  intros Hno.
  unfold signup, login, tryCatch, mbind, M_bind, bind, setItem, setUser, mret,
    M_ret, ret, throw, consoleError.
  rewrite Hno.
  cbn [storage items userLogs withStorage withUser user loading console].
  destruct (fits _); [|done].
  cbn [storage items userLogs withStorage withUser user loading console].
  destruct (fits _); [|done].
  cbn [storage items userLogs withStorage withUser user loading console].
  destruct (fits _); [|done].
  cbn [storage items userLogs withStorage withUser user loading console].
  destruct (fits _); [|done].
  cbn [storage items userLogs withStorage withUser user loading console].
  by destruct (logUserActivity _ _ _ _ _ _ _) as [[e|[]] w'].
Qed.

(** X3. [login] rejects exactly when one of the four writes is refused.
    It then rethrows the quota error after one console line, leaves the
    user in memory and the activity log as they were, and rolls nothing
    back: a token written before the refusal stays in the storage. *)
Theorem login_refused_keeps_partial email password r w :
  let token := generateMockToken r in
  ¬ acceptsAll
      (sessionWrites token (loginRole email) (loginUserId email r) email)
      (storage w) →
  ∃ w',
    login email password r w = (inl QuotaExceededError, w')
    ∧ user w' = user w
    ∧ userLogs (storage w') = userLogs (storage w)
    ∧ console w'
      = console w ++ [ConsoleError "Login failed:" QuotaExceededError]
    ∧ (fits (mkStorage (<["token" := token]> (items (storage w)))
               (userLogs (storage w))) = true →
       items (storage w') !! "token" = Some token)
    ∧ (fits (mkStorage (<["token" := token]> (items (storage w)))
               (userLogs (storage w))) = false →
       storage w' = storage w).
Proof.
  intros token Hrefused.
  set (m1 := <["token" := token]> (items (storage w))).
  set (m2 := <["userRole" := loginRole email]> m1).
  set (m3 := <["userId" := loginUserId email r]> m2).
  set (m4 := <["email" := email]> m3).
  unfold login, tryCatch, mbind, M_bind, bind, setItem, setUser, mret, M_ret,
    ret, throw, consoleError.
  fold (loginRole email) (loginUserId email r) token.
  cbn [storage items userLogs withStorage withUser user loading console].
  fold m1 m2 m3 m4.
  destruct (fits (mkStorage m1 (userLogs (storage w)))) eqn:H1.
  2: { eexists. split; [reflexivity |]. simpl. by destruct (storage w). }
  cbn [storage items userLogs withStorage withUser user loading console].
  fold m2.
  destruct (fits (mkStorage m2 (userLogs (storage w)))) eqn:H2.
  2: { eexists. split; [reflexivity |]. simpl.
       repeat split; try done. intros _. unfold m1. by simplify_map_eq. }
  cbn [storage items userLogs withStorage withUser user loading console].
  fold m3.
  destruct (fits (mkStorage m3 (userLogs (storage w)))) eqn:H3.
  2: { eexists. split; [reflexivity |]. simpl.
       repeat split; try done. intros _. unfold m2, m1. by simplify_map_eq. }
  cbn [storage items userLogs withStorage withUser user loading console].
  fold m4.
  destruct (fits (mkStorage m4 (userLogs (storage w)))) eqn:H4.
  2: { eexists. split; [reflexivity |]. simpl.
       repeat split; try done. intros _. unfold m3, m2, m1.
       by simplify_map_eq. }
  exfalso. apply Hrefused. simpl. by repeat split.
Qed.

(** X8. After a [login] whose writes are accepted, [hasRole] answers
    true for the role given at login and for no other string, and
    [isAdmin] answers whether the email contains "admin". *)
Theorem role_after_login email password r w requiredRole :
  acceptsAll
    (sessionWrites (generateMockToken r) (loginRole email)
       (loginUserId email r) email) (storage w) →
  ∃ w',
    (login email password r w).2 = w'
    ∧ hasRole requiredRole w'
      = (inr (bool_decide (loginRole email = requiredRole)), w')
    ∧ isAdmin w' = (inr (includes email "admin"), w')
    ∧ isAuthenticated w' = true.
Proof.
  intros Hfit. rewrite login_run by done.
  cbn [snd]. eexists. split; [reflexivity |].
  unfold isAdmin, hasRole, isAuthenticated, mbind, M_bind, bind, getItem, mret,
    M_ret, ret.
  rewrite logged_session_items, logged_session_user.
  rewrite lookup_insert_ne, lookup_insert_ne, lookup_insert_eq by done.
  split; [|split; [|done]].
  - f_equal. f_equal. apply bool_decide_ext. split; congruence.
  - f_equal. f_equal. unfold loginRole. by destruct (includes email "admin").
Qed.

(** ** Further properties: login, logout and restore together *)

Lemma findIndex_snoc {A : Type} (p : A → bool) (l : list A) (y : A) :
  (∀ x, x ∈ l → p x = false) → p y = true →
  findIndex p (l ++ [y]) = Some (length l).
Proof.
  intros Hl Hy. apply findIndex_Some. exists y.
  split; [by apply list_lookup_middle |]. split; [done |].
  intros j x Hj Hx. apply Hl.
  rewrite lookup_app_l in Hx by done. by eapply list_elem_of_lookup_2.
Qed.

Lemma token_truthy r : truthy (Some (generateMockToken r)) = true.
Proof. reflexivity. Qed.

Lemma loginUserId_truthy email r : truthy (Some (loginUserId email r)) = true.
Proof. unfold loginUserId. by destruct (includes email "admin"). Qed.

Lemma loginRole_truthy email : truthy (Some (loginRole email)) = true.
Proof. unfold loginRole. by destruct (includes email "admin"). Qed.

Lemma truthy_nonempty s : s ≠ "" → truthy (Some s) = true.
Proof. intros Hs. simpl. by destruct (String.eqb_spec s ""). Qed.

(** X4. A [login] followed by [handleLogout], for a non-empty email, with
    the writes accepted and no open login of the new user id in the log
    before: the logout closes the very entry the login appended (its
    loginTime kept, its logoutTime set, action "logout"), appends
    nothing, and clears the session. *)
Theorem login_then_logout_closes email password r r2 w log :
  let token := generateMockToken r in
  let role := loginRole email in
  let userId := loginUserId email r in
  persistedLogs (storage w) = Some log →
  acceptsAll (sessionWrites token role userId email) (storage w) →
  roomForLogs (sessionStored token role userId email w) →
  email ≠ "" →
  (∀ e, e ∈ log → isOpenLogin userId e = false) →
  ∃ w1 w2 closed,
    login email password r w = (inr (mkSession email userId role), w1)
    ∧ handleLogout r2 w1 = (inr tt, w2)
    ∧ persistedLogs (storage w2) = Some (sliceLast 99 log ++ [closed])
    ∧ e_id closed = pretty (dateNow (activity r)) +:+ random36 (activity r)
    ∧ e_userId closed = userId
    ∧ e_action closed = "logout"
    ∧ e_loginTime closed = Some (isoNow (activity r))
    ∧ e_logoutTime closed = Some (isoUpdate r2)
    ∧ sessionCleared (storage w2)
    ∧ user w2 = None.
Proof.
  intros token role userId Hlog Hfit Hroom Hemail Hfresh.
  set (n := newLog userId email role "login" (tokenLabel token) (activity r)).
  set (w1 := (logUserActivity userId email role "login" (tokenLabel token)
                (activity r) (sessionStored token role userId email w)).2).
  assert (persistedLogs (storage w1) = Some (sliceLast 99 log ++ [n])) as Hw1.
  { unfold w1. rewrite (logUserActivity_persisted _ _ _ _ _ _ _ log) by done.
    unfold updatedLogs. simpl. fold n.
    by rewrite sliceLast_app by (simpl; lia). }
  assert (roomForLogs w1) as Hroom1 by by apply logUserActivity_roomForLogs.
  assert (items (storage w1)
          = <["email" := email]> (<["userId" := userId]>
              (<["userRole" := role]> (<["token" := token]> (items (storage w))))))
    as Hitems by apply logged_session_items.
  exists w1, (loggedOut (logUserActivity userId email role "logout" None r2 w1).2),
    (closeEntry (isoUpdate r2) n).
  split; [by apply login_run |].
  split.
  { rewrite handleLogout_run, Hitems.
    rewrite lookup_insert_ne, lookup_insert_eq by done.
    rewrite lookup_insert_eq.
    rewrite lookup_insert_ne, lookup_insert_ne, lookup_insert_eq by done.
    unfold userId, role.
    by rewrite loginUserId_truthy, loginRole_truthy, truthy_nonempty. }
  split.
  { change (persistedLogs (storage (loggedOut ?x)))
      with (persistedLogs (storage x)).
    rewrite (logUserActivity_persisted _ _ _ _ _ _ _ _ Hw1) by done.
    unfold updatedLogs. simpl.
    rewrite findIndex_snoc.
    - replace (length (sliceLast 99 log)) with (length (sliceLast 99 log) + 0)
        by lia.
      rewrite alter_app_r. simpl.
      rewrite sliceLast_short; [done |].
      rewrite length_app, length_sliceLast. simpl. lia.
    - intros x Hx. apply Hfresh.
      by eapply elem_of_suffix; [|apply sliceLast_suffix].
    - unfold isOpenLogin, n. simpl. by rewrite String.eqb_refl. }
  repeat split; try done.
  all: apply removed_all_four.
Qed.

(** X5. A reload after a [login] whose writes were accepted: with a
    non-empty email the storage is left as it is and the user is
    restored as [{ email }] alone, without id and role; with the empty
    email the token is found without an email, and the reload removes the
    session that [login] had just returned. *)
Theorem reload_after_login email password r r2 w :
  acceptsAll
    (sessionWrites (generateMockToken r) (loginRole email)
       (loginUserId email r) email) (storage w) →
  let s := storage (login email password r w).2 in
  ∃ w',
    checkAuth r2 (mountWorld s) = (inr tt, w')
    ∧ loading w' = false
    ∧ (email ≠ "" →
       storage w' = s
       ∧ user w' = Some (mkUser email None None)
       ∧ isAuthenticated w' = true)
    ∧ (email = "" →
       sessionCleared (storage w')
       ∧ userLogs (storage w') = userLogs s
       ∧ user w' = None
       ∧ isAuthenticated w' = false).
Proof.
  intros Hfit s.
  assert (items s
          = <["email" := email]> (<["userId" := loginUserId email r]>
              (<["userRole" := loginRole email]>
                 (<["token" := generateMockToken r]> (items (storage w))))))
    as Hitems.
  { unfold s. rewrite login_run by done. apply logged_session_items. }
  assert (items s !! "token" = Some (generateMockToken r)) as Htoken.
  { rewrite Hitems. by simplify_map_eq. }
  assert (items s !! "email" = Some email) as Hemail.
  { rewrite Hitems. by simplify_map_eq. }
  unfold checkAuth, checkAuthWith, checkAuthBody, tryCatchFinally, tryCatch,
    mbind, M_bind, bind, getItem, setUser, mret, M_ret, ret.
  change (storage (mountWorld s)) with s. rewrite Htoken, token_truthy.
  cbn beta iota. change (storage (mountWorld s)) with s. rewrite Hemail.
  destruct (String.eqb_spec email "") as [->|Hne].
  - change (truthy (Some "")) with false. cbn beta iota.
    rewrite handleLogout_run. change (storage (mountWorld s)) with s.
    rewrite Hemail. change (truthy (Some "")) with false.
    rewrite andb_false_r. simpl.
    eexists. split; [reflexivity |]. simpl.
    split; [done |]. split; [done |]. intros _.
    split; [apply removed_all_four | done].
  - rewrite truthy_nonempty by done.
    eexists. split; [reflexivity |]. simpl.
    split; [done |]. split; [|done]. intros _. by destruct s.
Qed.

(** X6. Mounting the provider over any storage: [checkAuth] returns
    normally and opens the loading gate; somebody is authenticated
    afterwards exactly when a non-empty token and a non-empty email are
    stored, the user being the one the initial state already held; and
    unless a token is stored without an email, the storage is not
    written and nothing is printed. *)
Theorem mount_restores_session r s :
  let token := items s !! "token" in
  let email := items s !! "email" in
  ∃ w',
    checkAuth r (mountWorld s) = (inr tt, w')
    ∧ loading w' = false
    ∧ user w' = initialUser s
    ∧ user w' = initialUser (storage w')
    ∧ (isAuthenticated w' = true ↔ truthy token && truthy email = true)
    ∧ (truthy token = false ∨ truthy email = true →
       storage w' = s ∧ console w' = []).
Proof.
  intros token email.
  unfold checkAuth, checkAuthWith, checkAuthBody, tryCatchFinally, tryCatch,
    mbind, M_bind, bind, getItem, setUser, mret, M_ret, ret.
  change (storage (mountWorld s)) with s. fold token email.
  assert (initialUser s
          = if truthy token && truthy email
            then Some (mkUser (default "" email) None None) else None) as Hinit.
  { unfold initialUser. fold token email.
    destruct token as [t|], email as [e|]; simpl; try done.
    by destruct (String.eqb t ""). }
  destruct (truthy token) eqn:Htoken.
  - cbn beta iota. change (storage (mountWorld s)) with s. fold email.
    destruct (truthy email) eqn:Hemail.
    + eexists. split; [reflexivity |]. simpl. rewrite Hinit. simpl.
      repeat split; try done.
    + rewrite handleLogout_run. change (storage (mountWorld s)) with s.
      fold email.
      rewrite Hemail, andb_false_r. simpl.
      eexists. split; [reflexivity |]. simpl. rewrite Hinit. simpl.
      unfold initialUser, isAuthenticated. simpl.
      rewrite lookup_delete_ne, lookup_delete_ne, lookup_delete_ne,
        lookup_delete_eq by done.
      repeat split; try done; by destruct H.
  - eexists. split; [reflexivity |]. simpl. rewrite Hinit. simpl.
    unfold isAuthenticated. simpl. rewrite Hinit. simpl.
    repeat split; try done.
Qed.

(** X7. The forced logout of [checkAuth] (token stored, email missing or
    empty) emits no activity event: the stored log is untouched and the
    only console line is "User logged out". *)
Theorem restore_forced_logout_silent r w :
  truthy (items (storage w) !! "token") = true →
  truthy (items (storage w) !! "email") = false →
  checkAuth r w = (inr tt, setLoading false (loggedOut w))
  ∧ userLogs (storage (checkAuth r w).2) = userLogs (storage w)
  ∧ console (checkAuth r w).2 = console w ++ [ConsoleLog "User logged out"].
Proof.
  intros Htoken Hemail.
  assert (checkAuth r w = (inr tt, setLoading false (loggedOut w))) as ->.
  { unfold checkAuth, checkAuthWith, checkAuthBody, tryCatchFinally, tryCatch,
      mbind, M_bind, bind, getItem.
    rewrite Htoken, Hemail, handleLogout_run, Hemail, andb_false_r.
    done. }
  done.
Qed.

Lemma removes_idempotent (m : gmap string string) :
  let cleared :=
    delete "email" (delete "userId" (delete "userRole" (delete "token" m))) in
  delete "email" (delete "userId" (delete "userRole" (delete "token" cleared)))
  = cleared.
Proof.
  intros cleared. apply map_eq. intros k. unfold cleared.
  destruct (decide (k = "email")) as [->|]; [by simplify_map_eq |].
  destruct (decide (k = "userId")) as [->|]; [by simplify_map_eq |].
  destruct (decide (k = "userRole")) as [->|]; [by simplify_map_eq |].
  destruct (decide (k = "token")) as [->|]; by simplify_map_eq.
Qed.

(** X9. Logging out twice: the second [handleLogout] finds no session
    fields, so it emits no activity event, leaves the storage (the log
    included) as the first one left it and prints one line. *)
Theorem logout_twice r1 r2 w :
  let w1 := (handleLogout r1 w).2 in
  ∃ w2,
    handleLogout r2 w1 = (inr tt, w2)
    ∧ storage w2 = storage w1
    ∧ user w2 = None
    ∧ console w2 = console w1 ++ [ConsoleLog "User logged out"].
Proof.
  intros w1. unfold w1. rewrite (handleLogout_run r1 w). cbn [snd].
  rewrite handleLogout_run. cbn [loggedOut storage items].
  rewrite lookup_delete_ne, lookup_delete_eq by done. simpl.
  eexists. split; [reflexivity |]. simpl.
  split; [|done]. f_equal. apply removes_idempotent.
Qed.

(** ** Further properties: the activity log *)

(** X10. A stored log that cannot be parsed is never repaired: every
    call of [logUserActivity] returns normally, leaves the storage and the
    user as they are, and prints one SyntaxError line. *)
Theorem unreadable_log_never_recovers cs w :
  userLogs (storage w) = Some Unreadable →
  storage (recordAll cs w) = storage w
  ∧ user (recordAll cs w) = user w
  ∧ console (recordAll cs w)
    = console w
      ++ replicate (length cs)
           (ConsoleError "Failed to log user activity:" SyntaxError).
Proof.
  revert w. induction cs as [|c cs IH]; intros w Hbad.
  - simpl. by rewrite app_nil_r.
  - change (recordAll (c :: cs) w) with (recordAll cs (record c w).2).
    assert ((record c w).2
            = withConsole
                (console w
                 ++ [ConsoleError "Failed to log user activity:" SyntaxError])
                w) as ->.
    { unfold record. rewrite logUserActivity_unfold.
      unfold persistedLogs. by rewrite Hbad. }
    destruct (IH (withConsole
                    (console w
                     ++ [ConsoleError "Failed to log user activity:" SyntaxError])
                    w) Hbad) as (-> & -> & ->).
    simpl. by rewrite <- app_assoc.
Qed.

(** X11. While the browser refuses every write of the log, calls of
    [logUserActivity] change nothing in the storage, also not the entry a
    logout would have closed, and nothing of the user; each call prints
    one line. *)
Theorem refused_writes_change_nothing cs w :
  (∀ l, fits (mkStorage (items (storage w)) (Some (JsonLogs l))) = false) →
  storage (recordAll cs w) = storage w
  ∧ user (recordAll cs w) = user w
  ∧ length (console (recordAll cs w)) = length (console w) + length cs.
Proof.
  revert w. induction cs as [|c cs IH]; intros w Hfull.
  - simpl. repeat split. lia.
  - change (recordAll (c :: cs) w) with (recordAll cs (record c w).2).
    assert (∃ line, (record c w).2 = withConsole (console w ++ [line]) w)
      as (line & ->).
    { unfold record. rewrite logUserActivity_unfold.
      destruct (persistedLogs (storage w)); simpl; [|by eauto].
      rewrite Hfull. by eauto. }
    destruct (IH (withConsole (console w ++ [line]) w) Hfull) as (-> & -> & ->).
    simpl. rewrite length_app. simpl. repeat split. lia.
Qed.

(** X12. [login] does not depend on the activity log: with the four
    session writes accepted and the stored log unreadable it still
    stores the session and returns it; the log stays as it was and the
    failure shows as one console line. *)
Theorem login_survives_unreadable_log email password r w :
  userLogs (storage w) = Some Unreadable →
  acceptsAll
    (sessionWrites (generateMockToken r) (loginRole email)
       (loginUserId email r) email) (storage w) →
  ∃ w',
    login email password r w
    = (inr (mkSession email (loginUserId email r) (loginRole email)), w')
    ∧ userLogs (storage w') = Some Unreadable
    ∧ items (storage w') !! "token" = Some (generateMockToken r)
    ∧ items (storage w') !! "email" = Some email
    ∧ user w'
      = Some (mkUser email (Some (loginUserId email r)) (Some (loginRole email)))
    ∧ console w'
      = console w ++ [ConsoleError "Failed to log user activity:" SyntaxError].
Proof.
  intros Hbad Hfit. eexists. split; [by apply login_run |].
  rewrite logUserActivity_unfold. unfold persistedLogs.
  cbn [sessionStored storage userLogs]. rewrite Hbad. simpl.
  repeat split; by simplify_map_eq.
Qed.

(** X13. The label [login] records as tokenName is the same for every
    token: the first 20 characters of the constant JWT header and three
    dots.  The entry a login appends carries it, with the user id, email
    and role of the session. *)
Theorem login_token_label_constant email password r w log :
  persistedLogs (storage w) = Some log →
  acceptsAll
    (sessionWrites (generateMockToken r) (loginRole email)
       (loginUserId email r) email) (storage w) →
  roomForLogs
    (sessionStored (generateMockToken r) (loginRole email)
       (loginUserId email r) email w) →
  ∃ log' n,
    persistedLogs (storage (login email password r w).2) = Some log'
    ∧ last log' = Some n
    ∧ e_tokenName n = "eyJhbGciOiJIUzI1NiIs..."
    ∧ e_userId n = loginUserId email r
    ∧ e_username n = email
    ∧ e_role n = loginRole email
    ∧ e_action n = "login".
Proof.
  intros Hlog Hfit Hroom. rewrite login_run by done. cbn [snd].
  eexists. eexists. split.
  { by apply (logUserActivity_persisted _ _ _ _ _ _ _ log). }
  unfold updatedLogs. simpl.
  rewrite sliceLast_app by (simpl; lia).
  split; [apply last_snoc |]. done.
Qed.

Lemma isOpenLogin_closed userId now e :
  isOpenLogin userId (closeEntry now e) = false.
Proof. unfold isOpenLogin. simpl. by rewrite andb_false_r. Qed.

Lemma isOpenLogin_other u u' e :
  u' ≠ u → isOpenLogin u e = true → isOpenLogin u' e = false.
Proof.
  intros Hne. unfold isOpenLogin. rewrite !andb_true_iff, String.eqb_eq.
  intros [[<- _] _]. by destruct (String.eqb_spec (e_userId e) u').
Qed.

Lemma openLogins_closed_same u now l i :
  findIndex (isOpenLogin u) l = Some i →
  openLogins u (alter (closeEntry now) i l) = openLogins u l - 1.
Proof.
  unfold openLogins. revert i. induction l as [|x l IH]; intros i; [done |].
  simpl. destruct (isOpenLogin u x) eqn:Hx.
  - intros [= <-]. simpl. rewrite isOpenLogin_closed. simpl. lia.
  - destruct (findIndex (isOpenLogin u) l) as [i'|]; [|done].
    intros [= <-]. simpl. rewrite Hx. by apply IH.
Qed.

Lemma openLogins_closed_other u u' now l i :
  u' ≠ u →
  findIndex (isOpenLogin u) l = Some i →
  openLogins u' (alter (closeEntry now) i l) = openLogins u' l.
Proof.
  intros Hne. unfold openLogins. revert i.
  induction l as [|x l IH]; intros i; [done |].
  simpl. destruct (isOpenLogin u x) eqn:Hx.
  - intros [= <-]. simpl.
    by rewrite isOpenLogin_closed, (isOpenLogin_other u u' x).
  - destruct (findIndex (isOpenLogin u) l) as [i'|]; [|done].
    intros [= <-]. specialize (IH i' eq_refl). simpl.
    destruct (isOpenLogin u' x); simpl; [f_equal |]; exact IH.
Qed.

Lemma openLogins_none u l :
  findIndex (isOpenLogin u) l = None → openLogins u l = 0.
Proof.
  unfold openLogins. induction l as [|x l IH]; [done |].
  simpl. destruct (isOpenLogin u x); [done |].
  destruct (findIndex (isOpenLogin u) l); [done |]. intros _. by apply IH.
Qed.

Lemma openLogins_drop u k l : openLogins u (drop k l) ≤ openLogins u l.
Proof.
  unfold openLogins. revert k. induction l as [|x l IH]; intros [|k]; simpl;
    try lia.
  specialize (IH k). destruct (isOpenLogin u x); simpl; lia.
Qed.

Lemma openLogins_snoc u l n :
  isOpenLogin u n = false → openLogins u (l ++ [n]) = openLogins u l.
Proof.
  intros Hn. unfold openLogins. rewrite List.filter_app, length_app.
  simpl. rewrite Hn. simpl. lia.
Qed.

(** X14. A logout call on a log of at most 100 entries, its write
    accepted, lowers the number of open logins of the user by one if
    there is one and never raises that of anybody; when it closes an
    entry, the length of the log and the open logins of every other user
    are unchanged. *)
Theorem logout_closes_one_open_login userId username role tokenName r w log :
  persistedLogs (storage w) = Some log →
  roomForLogs w →
  length log ≤ 100 →
  ∃ log',
    persistedLogs
      (storage (logUserActivity userId username role "logout" tokenName r w).2)
    = Some log'
    ∧ openLogins userId log' = openLogins userId log - 1
    ∧ (∀ u', openLogins u' log' ≤ openLogins u' log)
    ∧ (0 < openLogins userId log →
       length log' = length log
       ∧ ∀ u', u' ≠ userId → openLogins u' log' = openLogins u' log).
Proof.
  intros Hlog Hroom Hlen.
  eexists. split; [by apply logUserActivity_persisted |].
  unfold updatedLogs. simpl.
  destruct (findIndex (isOpenLogin userId) log) as [i|] eqn:Hfind.
  - rewrite sliceLast_short by (rewrite length_alter; lia).
    split; [by apply openLogins_closed_same |]. split.
    + intros u'. destruct (decide (u' = userId)) as [->|Hne].
      * rewrite (openLogins_closed_same _ _ _ _ Hfind). lia.
      * by rewrite (openLogins_closed_other userId u' _ _ _ Hne Hfind).
    + intros _. split; [apply length_alter |].
      intros u' Hne. by apply (openLogins_closed_other userId).
  - assert (∀ u', openLogins u'
              (sliceLast 100
                 (log ++ [newLog userId username role "logout" tokenName r]))
              ≤ openLogins u' log) as Hle.
    { intros u'. rewrite sliceLast_app by (simpl; lia).
      rewrite openLogins_snoc.
      - apply openLogins_drop.
      - unfold isOpenLogin. simpl. by rewrite andb_false_r. }
    pose proof (Hle userId) as Hself.
    rewrite (openLogins_none _ _ Hfind) in Hself |- *.
    split; [lia |]. split; [done |]. lia.
Qed.

Lemma updatedLogs_shape userId username role action tokenName r l :
  action = "login" ∨ action = "logout" →
  Forall entryShape l →
  Forall entryShape (updatedLogs userId username role action tokenName r l).
Proof.
  intros Haction Hl. unfold updatedLogs.
  assert (entryShape (newLog userId username role action tokenName r)) as Hnew.
  { unfold entryShape. destruct Haction as [->| ->]; simpl; eauto. }
  destruct (String.eqb action "logout");
    [|by apply Forall_app; split; [|apply Forall_singleton]].
  destruct (findIndex (isOpenLogin userId) l) as [i|];
    [|by apply Forall_app; split; [|apply Forall_singleton]].
  apply Forall_alter; [done |]. intros x _ _. right. simpl. eauto.
Qed.

(** X15. Along every sequence of login and logout calls, for every
    quota, each entry of the log stays of one of two shapes: an open
    login (action "login", logoutTime null, loginTime set) or a closed
    one (action "logout", logoutTime set).  On such entries the test of
    [findIndex] is the same as: the user id matches and the action is
    "login". *)
Theorem log_shape_invariant :
  (∀ (cs : list Call) (w : World),
     Forall (λ c, c_action c = "login" ∨ c_action c = "logout") cs →
     shapedLog w → shapedLog (recordAll cs w))
  ∧ (∀ userId e,
       entryShape e →
       isOpenLogin userId e = true ↔ e_userId e = userId ∧ e_action e = "login").
Proof.
  split.
  - intros cs. induction cs as [|c cs IH]; intros w Hcs Hw; [done |].
    apply Forall_cons in Hcs as [Hc Hcs].
    change (recordAll (c :: cs) w) with (recordAll cs (record c w).2).
    apply IH; [done |]. intros l. unfold record.
    rewrite logUserActivity_unfold.
    destruct (persistedLogs (storage w)) as [l0|] eqn:Hl0; simpl.
    + destruct (fits _); simpl.
      * intros [= <-]. apply Forall_drop, updatedLogs_shape; [done |].
        by apply Hw.
      * rewrite Hl0. intros [= <-]. by apply Hw.
    + by rewrite Hl0.
  - intros userId e. unfold entryShape, isOpenLogin.
    rewrite !andb_true_iff, negb_true_iff, !String.eqb_eq.
    intros [(Hlogin & -> & _)|(Hlogout & _)].
    + simpl. tauto.
    + rewrite Hlogout. split; [by intros [[_ ?] _] | by intros [_ ?]].
Qed.

Lemma openLogins_snoc_open u l n :
  isOpenLogin u n = true → openLogins u (l ++ [n]) = openLogins u l + 1.
Proof.
  intros Hn. unfold openLogins. rewrite List.filter_app, length_app.
  simpl. by rewrite Hn.
Qed.

(** X16. A login call whose write is accepted opens one more login for
    its user and none for anybody else, as long as the log holds fewer
    than 100 entries; when the oldest entry is evicted, no count grows by
    more than that. *)
Theorem login_opens_one userId username role tokenName r w log :
  persistedLogs (storage w) = Some log →
  roomForLogs w →
  ∃ log',
    persistedLogs
      (storage (logUserActivity userId username role "login" tokenName r w).2)
    = Some log'
    ∧ (length log < 100 →
       length log' = length log + 1
       ∧ openLogins userId log' = openLogins userId log + 1
       ∧ ∀ u', u' ≠ userId → openLogins u' log' = openLogins u' log)
    ∧ openLogins userId log' ≤ openLogins userId log + 1
    ∧ ∀ u', u' ≠ userId → openLogins u' log' ≤ openLogins u' log.
Proof.
  intros Hlog Hroom.
  eexists. split; [by apply logUserActivity_persisted |].
  unfold updatedLogs. simpl.
  set (n := newLog userId username role "login" tokenName r).
  assert (isOpenLogin userId n = true) as Hself.
  { unfold isOpenLogin, n. simpl. by rewrite String.eqb_refl. }
  assert (∀ u', u' ≠ userId → isOpenLogin u' n = false) as Hother.
  { intros u' Hne. by apply (isOpenLogin_other userId). }
  split; [|split].
  - intros Hlen. rewrite sliceLast_short by (rewrite length_app; simpl; lia).
    split; [rewrite length_app; simpl; lia |].
    split; [by apply openLogins_snoc_open |].
    intros u' Hne. by apply openLogins_snoc, Hother.
  - rewrite sliceLast_app by (simpl; lia).
    rewrite openLogins_snoc_open by done.
    pose proof (openLogins_drop userId (length log - (100 - length [n])) log).
    unfold sliceLast. lia.
  - intros u' Hne. rewrite sliceLast_app by (simpl; lia).
    rewrite openLogins_snoc by by apply Hother.
    apply openLogins_drop.
Qed.

End AuthProvider.

(** ** Witnesses *)

Lemma activity_log_bounded_witness :
  boundedLog (recordAll noQuota (take 7 syntheticCalls) freshWorld)
  ∧ persistedLogs
      (storage (record noQuota (syntheticLogin 1) worldAfterLogin).2)
    = Some [firstLogin; entryOf (syntheticLogin 1)]
  ∧ (∃ l, persistedLogs (storage (recordAll noQuota syntheticCalls freshWorld))
            = Some l
          ∧ length l = 100
          ∧ entryOf (syntheticLogin 0) ∉ l).
Proof.
  destruct (activity_log_bounded noQuota) as (Hinv & Hcall & Hex).
  split; [|split].
  - apply Hinv. intros l [= <-]. simpl. lia.
  - destruct (Hcall (syntheticLogin 1) worldAfterLogin [firstLogin])
      as (_ & _ & l' & Hl' & -> & _).
    + reflexivity.
    + intros l. reflexivity.
    + exact Hl'.
  - destruct (Hex syntheticCalls freshWorld [])
      as (c0 & rest & l & Hcs & Hl & _ & Hlen & Hnotin & _).
    + reflexivity.
    + intros l. reflexivity.
    + reflexivity.
    + apply Forall_fmap, Forall_forall. intros n _. reflexivity.
    + apply (bool_decide_unpack (NoDup (c_userId <$> syntheticCalls))).
      vm_compute. exact I.
    + injection Hcs as <- _. eauto.
Defined.

Lemma logout_reconciles_witness :
  ∃ log',
    persistedLogs
      (storage (logUserActivity noQuota "u1" "a@x.com" "user" "logout" None
                  (sampleReadings 1) worldAfterLogin).2) = Some log'
    ∧ length log' = 1.
Proof.
  destruct (logout_reconciles noQuota "u1" "a@x.com" "user" None
              (sampleReadings 1) worldAfterLogin [firstLogin])
    as (log' & Hlog' & Hupdate & _).
  - reflexivity.
  - intros l. reflexivity.
  - simpl. lia.
  - repeat constructor. discriminate.
  - exists log'. split; [exact Hlog' |].
    destruct Hupdate as (i & e & e' & _ & _ & _ & _ & _ & _ & _ & Hlen & _).
    + exists firstLogin. split; [left | repeat split].
    + exact Hlen.
Defined.

Lemma login_always_appends_witness :
  persistedLogs
    (storage (logUserActivity noQuota "u1" "a@x.com" "user" "login" None
                (sampleReadings 1) worldAfterLogin).2)
  = Some [firstLogin;
          newLog "u1" "a@x.com" "user" "login" None (sampleReadings 1)].
Proof.
  destruct (login_always_appends noQuota "u1" "a@x.com" "user" None
              (sampleReadings 1) worldAfterLogin [firstLogin])
    as (Hlog' & _).
  - reflexivity.
  - intros l. reflexivity.
  - exact Hlog'.
Defined.

Lemma record_frame_witness :
  ∃ log',
    persistedLogs
      (storage (record noQuota
                  (mkCall "u1" "a@x.com" "user" "logout" None (sampleReadings 1))
                  worldAfterLogin).2) = Some log'
    ∧ length log' = 1.
Proof.
  destruct (record_frame noQuota
              (mkCall "u1" "a@x.com" "user" "logout" None (sampleReadings 1))
              worldAfterLogin [firstLogin])
    as (log' & Hlog' & Hframe).
  - reflexivity.
  - intros l. reflexivity.
  - simpl. lia.
  - exists log'. split; [exact Hlog' |]. simpl in Hframe. tauto.
Defined.

Lemma restore_inconsistent_clears_witness :
  ∃ w', checkAuth noQuota (sampleReadings 0) worldTokenOnly = (inr tt, w')
        ∧ user w' = None ∧ sessionCleared (storage w').
Proof.
  destruct restore_inconsistent_clears with (fits := noQuota) as (Hclear & _).
  destruct (Hclear (sampleReadings 0) worldTokenOnly)
    as (w' & Hrun & Huser & _ & Hcleared & _).
  - reflexivity.
  - reflexivity.
  - exists w'. auto.
Defined.


Lemma logout_emits_iff_identified_witness :
  ∃ w', handleLogout noQuota (sampleReadings 1) worldLoggedIn = (inr tt, w')
        ∧ w' = loggedOut
                 (logUserActivity noQuota "u1" "a@x.com" "user" "logout" None
                    (sampleReadings 1) worldLoggedIn).2.
Proof.
  destruct (logout_emits_iff_identified noQuota (sampleReadings 1) worldLoggedIn)
    as (w' & Hrun & _ & _ & _ & Hemit & _).
  exists w'. split; [exact Hrun |].
  destruct Hemit as (u & e & ro & Hu & He & Hro & Hw'); [reflexivity |].
  vm_compute in Hu, He, Hro.
  injection Hu as <-. injection He as <-. injection Hro as <-. exact Hw'.
Defined.

(** ** The examples of the specification, run *)

(** A login followed by the logout of the same user: one entry, action
    "logout", both times set. *)
Example login_then_logout :
  persistedLogs
    (storage
       (recordAll noQuota
          [mkCall "u1" "a@x.com" "user" "login" None (sampleReadings 0);
           mkCall "u1" "a@x.com" "user" "logout" None (sampleReadings 1)]
          freshWorld))
  = Some [ {| e_id := "1700000000000k3x9q2m1z";
              e_userId := "u1";
              e_username := "a@x.com";
              e_role := "user";
              e_action := "logout";
              e_loginTime := Some "2024-01-01T09:00:00.000Z";
              e_logoutTime := Some "2024-01-01T09:30:00.000Z";
              e_ipAddress := "192.168.1.42";
              e_tokenName := "N/A" |} ].
Proof. vm_compute. reflexivity. Qed.

(** A logout with nothing to close is recorded on its own. *)
Example logout_alone :
  persistedLogs
    (storage
       (record noQuota
          (mkCall "u2" "b@x.com" "user" "logout" None (sampleReadings 5))
          worldAfterLogin).2)
  = Some [ firstLogin;
           {| e_id := "1700000000005k3x9q2m1z";
              e_userId := "u2";
              e_username := "b@x.com";
              e_role := "user";
              e_action := "logout";
              e_loginTime := None;
              e_logoutTime := Some "2024-01-01T09:00:00.000Z";
              e_ipAddress := "192.168.1.42";
              e_tokenName := "N/A" |} ].
Proof. vm_compute. reflexivity. Qed.

(** Role checks compare character for character. *)
Example hasRole_case_sensitive :
  (hasRole "Admin" worldLoggedIn).1 = inr false
  ∧ (hasRole "user" worldLoggedIn).1 = inr true
  ∧ (hasRole "user " worldLoggedIn).1 = inr false.
Proof. vm_compute. auto. Qed.

(** A refused write of the log does not keep [handleLogout] from
    clearing the session. *)
Example logout_on_full_disk :
  let w' := (handleLogout fullDisk (sampleReadings 1) worldLoggedIn).2 in
  (handleLogout fullDisk (sampleReadings 1) worldLoggedIn).1 = inr tt
  ∧ items (storage w') = ∅
  ∧ user w' = None
  ∧ persistedLogs (storage w') = Some [firstLogin]
  ∧ console w'
    = [ConsoleError "Failed to log user activity:" QuotaExceededError;
       ConsoleLog "User logged out"].
Proof. vm_compute. auto. Qed.

(** With the disk full, [login] rejects with the quota error. *)
Example login_on_full_disk :
  (login fullDisk "a@x.com" "pw" sampleLoginReadings freshWorld).1
  = inl QuotaExceededError.
Proof. vm_compute. reflexivity. Qed.

(** ** Witnesses of the further properties *)

Lemma signup_never_admin_witness :
  ∃ w',
    signup noQuota "admin@x.com" "pw" sampleLoginReadings freshWorld
    = (inr (mkSession "admin@x.com" "user-1700000000000" "user"), w')
    ∧ isAdmin w' = (inr false, w').
Proof.
  destruct (signup_never_admin noQuota "admin@x.com" "pw" sampleLoginReadings
              freshWorld) as (w' & Hrun & _ & _ & _ & _ & _ & Hadmin).
  - simpl. repeat split.
  - exists w'. split; [exact Hrun | exact Hadmin].
Defined.

Lemma signup_agrees_with_login_witness :
  (signup noQuota "a@x.com" "pw" sampleLoginReadings freshWorld).1
  = (login noQuota "a@x.com" "pw" sampleLoginReadings freshWorld).1.
Proof.
  destruct (signup_agrees_with_login noQuota "a@x.com" "pw" sampleLoginReadings
              freshWorld) as (Hresult & _).
  - reflexivity.
  - exact Hresult.
Defined.

Lemma login_refused_keeps_partial_witness :
  ∃ w',
    login tokenOnlyQuota "a@x.com" "pw" sampleLoginReadings freshWorld
    = (inl QuotaExceededError, w')
    ∧ items (storage w') !! "token"
      = Some (generateMockToken sampleLoginReadings).
Proof.
  destruct (login_refused_keeps_partial tokenOnlyQuota "a@x.com" "pw"
              sampleLoginReadings freshWorld)
    as (w' & Hrun & _ & _ & _ & Hkept & _).
  - intros (_ & Hrole & _). vm_compute in Hrole. discriminate Hrole.
  - exists w'. split; [exact Hrun |]. apply Hkept. reflexivity.
Defined.

Lemma role_after_login_witness :
  isAdmin (login noQuota "admin@x.com" "pw" sampleLoginReadings freshWorld).2
  = (inr true,
     (login noQuota "admin@x.com" "pw" sampleLoginReadings freshWorld).2).
Proof.
  destruct (role_after_login noQuota "admin@x.com" "pw" sampleLoginReadings
              freshWorld "admin") as (w' & Hw' & _ & Hadmin & _).
  - simpl. repeat split.
  - rewrite Hw'. exact Hadmin.
Defined.

Lemma login_then_logout_closes_witness :
  ∃ w1 w2 closed,
    login noQuota "a@x.com" "pw" sampleLoginReadings freshWorld
    = (inr (mkSession "a@x.com" "user-1700000000000" "user"), w1)
    ∧ handleLogout noQuota (sampleReadings 1) w1 = (inr tt, w2)
    ∧ persistedLogs (storage w2) = Some [closed]
    ∧ e_action closed = "logout".
Proof.
  destruct (login_then_logout_closes noQuota "a@x.com" "pw" sampleLoginReadings
              (sampleReadings 1) freshWorld [])
    as (w1 & w2 & closed & Hlogin & Hlogout & Hlog & _ & _ & Haction & _).
  - reflexivity.
  - simpl. repeat split.
  - intros l. reflexivity.
  - discriminate.
  - intros e He. by apply elem_of_nil in He.
  - exists w1, w2, closed. auto.
Defined.

Lemma reload_after_login_witness :
  ∃ w',
    checkAuth noQuota (sampleReadings 1)
      (mountWorld
         (storage (login noQuota "a@x.com" "pw" sampleLoginReadings
                     freshWorld).2))
    = (inr tt, w')
    ∧ user w' = Some (mkUser "a@x.com" None None).
Proof.
  destruct (reload_after_login noQuota "a@x.com" "pw" sampleLoginReadings
              (sampleReadings 1) freshWorld)
    as (w' & Hrun & _ & Hkept & _).
  - simpl. repeat split.
  - exists w'. split; [exact Hrun |]. apply Hkept. discriminate.
Defined.

Lemma mount_restores_session_witness :
  ∃ w',
    checkAuth noQuota (sampleReadings 1) (mountWorld (storage worldLoggedIn))
    = (inr tt, w')
    ∧ storage w' = storage worldLoggedIn
    ∧ isAuthenticated w' = true.
Proof.
  destruct (mount_restores_session noQuota (sampleReadings 1)
              (storage worldLoggedIn))
    as (w' & Hrun & _ & _ & _ & Hauth & Hsame).
  exists w'. split; [exact Hrun |]. split.
  - apply Hsame. right. reflexivity.
  - apply Hauth. reflexivity.
Defined.

Lemma restore_forced_logout_silent_witness :
  userLogs (storage (checkAuth noQuota (sampleReadings 1) worldTokenOnly).2)
  = None.
Proof.
  destruct (restore_forced_logout_silent noQuota (sampleReadings 1)
              worldTokenOnly) as (_ & Hlogs & _).
  - reflexivity.
  - reflexivity.
  - exact Hlogs.
Defined.

Lemma unreadable_log_never_recovers_witness :
  storage (recordAll noQuota syntheticCalls worldCorruptLog)
  = storage worldCorruptLog.
Proof.
  destruct (unreadable_log_never_recovers noQuota syntheticCalls
              worldCorruptLog) as (Hstorage & _).
  - reflexivity.
  - exact Hstorage.
Defined.

Lemma refused_writes_change_nothing_witness :
  storage (recordAll fullDisk syntheticCalls worldAfterLogin)
  = storage worldAfterLogin.
Proof.
  destruct (refused_writes_change_nothing fullDisk syntheticCalls
              worldAfterLogin) as (Hstorage & _).
  - intros l. reflexivity.
  - exact Hstorage.
Defined.

Lemma login_survives_unreadable_log_witness :
  ∃ w',
    login noQuota "a@x.com" "pw" sampleLoginReadings worldCorruptLog
    = (inr (mkSession "a@x.com" "user-1700000000000" "user"), w')
    ∧ userLogs (storage w') = Some Unreadable.
Proof.
  destruct (login_survives_unreadable_log noQuota "a@x.com" "pw"
              sampleLoginReadings worldCorruptLog)
    as (w' & Hrun & Hlogs & _).
  - reflexivity.
  - simpl. repeat split.
  - exists w'. split; [exact Hrun | exact Hlogs].
Defined.

Lemma login_token_label_constant_witness :
  ∃ log' n,
    persistedLogs
      (storage (login noQuota "a@x.com" "pw" sampleLoginReadings
                  worldAfterLogin).2) = Some log'
    ∧ last log' = Some n
    ∧ e_tokenName n = "eyJhbGciOiJIUzI1NiIs...".
Proof.
  destruct (login_token_label_constant noQuota "a@x.com" "pw"
              sampleLoginReadings worldAfterLogin [firstLogin])
    as (log' & n & Hlog' & Hlast & Hlabel & _).
  - reflexivity.
  - simpl. repeat split.
  - intros l. reflexivity.
  - exists log', n. auto.
Defined.

Lemma logout_closes_one_open_login_witness :
  ∃ log',
    persistedLogs
      (storage (logUserActivity noQuota "u1" "a@x.com" "user" "logout" None
                  (sampleReadings 3) worldTwoSessions).2) = Some log'
    ∧ openLogins "u1" log' = 1
    ∧ openLogins "u2" log' = 1.
Proof.
  destruct (logout_closes_one_open_login noQuota "u1" "a@x.com" "user" None
              (sampleReadings 3) worldTwoSessions twoSessionsLog)
    as (log' & Hlog' & Hself & _ & Hother).
  - reflexivity.
  - intros l. reflexivity.
  - simpl. lia.
  - exists log'. split; [exact Hlog' |]. split; [exact Hself |].
    destruct Hother as (_ & Hother).
    + vm_compute. lia.
    + rewrite (Hother "u2"); [reflexivity | discriminate].
Defined.

Lemma log_shape_invariant_witness :
  shapedLog (recordAll noQuota syntheticCalls freshWorld).
Proof.
  destruct (log_shape_invariant noQuota) as (Hinv & _).
  apply Hinv.
  - apply Forall_fmap, Forall_forall. intros n _. left. reflexivity.
  - intros l [= <-]. constructor.
Defined.

Lemma login_opens_one_witness :
  ∃ log',
    persistedLogs
      (storage (logUserActivity noQuota "u1" "a@x.com" "user" "login" None
                  (sampleReadings 3) worldTwoSessions).2) = Some log'
    ∧ openLogins "u1" log' = 3.
Proof.
  destruct (login_opens_one noQuota "u1" "a@x.com" "user" None
              (sampleReadings 3) worldTwoSessions twoSessionsLog)
    as (log' & Hlog' & Hgrow & _).
  - reflexivity.
  - intros l. reflexivity.
  - exists log'. split; [exact Hlog' |].
    destruct Hgrow as (_ & Hone & _); [simpl; lia |]. exact Hone.
Defined.
